(** * BARK (Binary Authority Regulatory Kernel): a shallow embedding

    The C sources of [kernel-bark] ([include/bark.h], [src/bark_entropy.c],
    [src/bark_signature.c], [src/bark_hooks.c], [src/bark_main.c]) are
    rendered as state-passing functions over one record holding the module's
    globals.  Calls are modelled sequentially: a hook runs to completion on
    the state it is given. *)

From Stdlib Require Import ZArith Lia.
From stdpp Require Import gmap strings.
From Stdlib Require Strings.Byte.

Local Open Scope Z_scope.

(** ** Machine integers (LP64 kernel: [long], [atomic_long_t], [atomic64_t]
    and [unsigned long] are 64 bits wide) *)

Definition BITS_PER_LONG : Z := 64.
Definition LONG_MAX : Z := 2 ^ (BITS_PER_LONG - 1) - 1.
Definition LONG_MIN : Z := - 2 ^ (BITS_PER_LONG - 1).
Definition ULONG_MAX : Z := 2 ^ BITS_PER_LONG - 1.

(** Conversion to [long] / [s64]: two's complement wrap-around. *)
Definition to_long (z : Z) : Z :=
  (z + 2 ^ (BITS_PER_LONG - 1)) mod 2 ^ BITS_PER_LONG - 2 ^ (BITS_PER_LONG - 1).

(** Conversion to [unsigned long]. *)
Definition to_ulong (z : Z) : Z := z mod 2 ^ BITS_PER_LONG.

Definition is_long (z : Z) : Prop := LONG_MIN <= z <= LONG_MAX.
Definition is_ulong (z : Z) : Prop := 0 <= z <= ULONG_MAX.

(** Linux errno numbers (uapi/asm-generic/errno-base.h), supplied to the
    module by the kernel headers. *)
Definition EPERM : Z := 1.
Definition ENOENT : Z := 2.
Definition EACCES : Z := 13.
Definition EINVAL : Z := 22.

(** ** bark.h *)

Definition BARK_DEFAULT_MAX_ENTROPY : Z := 1000.
Definition BARK_DEFAULT_ENFORCE : Z := 1.

Definition BARK_ERR_ENTROPY_EXCEEDED : Z := - EPERM.
Definition BARK_ERR_SIGNATURE_INVALID : Z := - EACCES.
Definition BARK_ERR_NOT_AUTHORIZED : Z := - EACCES.

Inductive bark_sig_state : Set :=
  | BARK_SIG_UNKNOWN
  | BARK_SIG_VALID
  | BARK_SIG_INVALID
  | BARK_SIG_MISSING.

#[global] Instance bark_sig_state_eq_dec : EqDecision bark_sig_state.
Proof. solve_decision. Defined.

Record bark_auth_result := mk_auth_result {
  ar_sig_state : bark_sig_state;
  ar_entropy_level : Z;
  ar_authorized : bool;
  ar_reason : option string
}.

Record bark_task_security := mk_task_security {
  ts_sig_state : bark_sig_state;
  ts_authorization_time : Z;
  ts_authorization_count : Z;
  ts_is_substrate_process : bool
}.

Record bark_file_security := mk_file_security {
  fs_sig_state : bark_sig_state;
  fs_signature_hash : string
}.

Record bark_stats := mk_stats {
  authorizations : Z;
  denials : Z;
  entropy_blocks : Z;
  signature_failures : Z
}.

(** ** Kernel objects the module is handed *)

(** A [struct file *] that is not NULL is identified by a number; NULL
    pointers are [None] throughout. *)
Definition file := nat.

(** Of [struct task_struct] the module reads [pid] and [comm], and asks the
    kernel for the executable with [get_task_exe_file], which yields NULL
    when the task has none. *)
Record task_struct := mk_task {
  pid : Z;
  comm : string;
  exe_file : option file
}.

Definition get_task_exe_file (task : task_struct) : option file := exe_file task.

Record linux_binprm := mk_binprm {
  bprm_file : option file;
  bprm_filename : string
}.

Record timespec64 := mk_timespec { tv_sec : Z; tv_nsec : Z }.

(** The kernel log: one entry per [printk], with the arguments of the
    format string kept as data. *)
Inductive kern_level := KERN_EMERG | KERN_ALERT | KERN_WARNING | KERN_DEBUG.

Inductive bark_message :=
  | MsgNoExecutable (task_pid : Z)
  | MsgEntropyLimitBlocked
  | MsgUnauthorizedProjection (reason : string)
  | MsgBinarySignatureFailed (filename : string)
  | MsgCredentialChangeBlocked
  | MsgAuthorized (task_pid : Z) (task_comm : string) (entropy : Z)
  | MsgViolation (at_time : timespec64) (who : option (Z * string)) (reason : string)
  | MsgEntropyExceeded (level ceiling : Z).

(** Address of a security blob inside a task or a file. *)
Definition blob_ptr := nat.

(** ** Module state: the globals of [bark_main.c] and [bark_entropy.c], the
    security blobs, the kernel log and clock.  [sig_verifications] is a
    ghost counter: it counts how often [bark_verify_signature] went past its
    cache check into the verification proper. *)
Record bark_state := mk_state {
  bark_enforce : Z;
  bark_max_entropy : Z;
  bark_verbose : Z;
  current_entropy : Z;
  bark_statistics : bark_stats;
  task_blobs : gmap blob_ptr bark_task_security;
  file_blobs : gmap blob_ptr bark_file_security;
  klog : list (kern_level * bark_message);
  ktime_real : timespec64;
  sig_verifications : nat
}.

Definition set_current_entropy (v : Z) (s : bark_state) : bark_state :=
  mk_state (bark_enforce s) (bark_max_entropy s) (bark_verbose s) v
    (bark_statistics s) (task_blobs s) (file_blobs s) (klog s) (ktime_real s)
    (sig_verifications s).

Definition set_statistics (st : bark_stats) (s : bark_state) : bark_state :=
  mk_state (bark_enforce s) (bark_max_entropy s) (bark_verbose s)
    (current_entropy s) st (task_blobs s) (file_blobs s) (klog s)
    (ktime_real s) (sig_verifications s).

Definition set_task_blobs (m : gmap blob_ptr bark_task_security) (s : bark_state)
  : bark_state :=
  mk_state (bark_enforce s) (bark_max_entropy s) (bark_verbose s)
    (current_entropy s) (bark_statistics s) m (file_blobs s) (klog s)
    (ktime_real s) (sig_verifications s).

Definition set_file_blobs (m : gmap blob_ptr bark_file_security) (s : bark_state)
  : bark_state :=
  mk_state (bark_enforce s) (bark_max_entropy s) (bark_verbose s)
    (current_entropy s) (bark_statistics s) (task_blobs s) m (klog s)
    (ktime_real s) (sig_verifications s).

Definition printk (lvl : kern_level) (m : bark_message) (s : bark_state)
  : bark_state :=
  mk_state (bark_enforce s) (bark_max_entropy s) (bark_verbose s)
    (current_entropy s) (bark_statistics s) (task_blobs s) (file_blobs s)
    (klog s ++ [(lvl, m)]) (ktime_real s) (sig_verifications s).

Definition count_verification (s : bark_state) : bark_state :=
  mk_state (bark_enforce s) (bark_max_entropy s) (bark_verbose s)
    (current_entropy s) (bark_statistics s) (task_blobs s) (file_blobs s)
    (klog s) (ktime_real s) (S (sig_verifications s)).

(** State right after module load (initialisers of [bark_main.c] and
    [bark_entropy.c]). *)
Definition bark_boot (now : timespec64) : bark_state :=
  mk_state BARK_DEFAULT_ENFORCE BARK_DEFAULT_MAX_ENTROPY 0 0
    (mk_stats 0 0 0 0) ∅ ∅ [] now 0%nat.

(** ** Atomic primitives ([linux/atomic.h]); arithmetic wraps. *)

Definition atomic_long_read (s : bark_state) : Z := current_entropy s.

Definition atomic_long_set (v : Z) (s : bark_state) : bark_state :=
  set_current_entropy (to_long v) s.

Definition atomic_long_add (i : Z) (s : bark_state) : bark_state :=
  set_current_entropy (to_long (current_entropy s + to_long i)) s.

Definition atomic_long_dec (s : bark_state) : bark_state :=
  set_current_entropy (to_long (current_entropy s - 1)) s.

Definition atomic64_inc (v : Z) : Z := to_long (v + 1).

Definition inc_authorizations (s : bark_state) : bark_state :=
  let st := bark_statistics s in
  set_statistics (mk_stats (atomic64_inc (authorizations st)) (denials st)
                    (entropy_blocks st) (signature_failures st)) s.

Definition inc_denials (s : bark_state) : bark_state :=
  let st := bark_statistics s in
  set_statistics (mk_stats (authorizations st) (atomic64_inc (denials st))
                    (entropy_blocks st) (signature_failures st)) s.

Definition inc_entropy_blocks (s : bark_state) : bark_state :=
  let st := bark_statistics s in
  set_statistics (mk_stats (authorizations st) (denials st)
                    (atomic64_inc (entropy_blocks st)) (signature_failures st)) s.

Definition inc_signature_failures (s : bark_state) : bark_state :=
  let st := bark_statistics s in
  set_statistics (mk_stats (authorizations st) (denials st)
                    (entropy_blocks st) (atomic64_inc (signature_failures st))) s.

(** ** bark_entropy.c *)

Definition bark_get_entropy_level (s : bark_state) : Z :=
  let level := to_ulong (atomic_long_read s) in
  level.

Definition bark_check_entropy_ceiling (s : bark_state) : Z * bark_state :=
  let level := bark_get_entropy_level s in
  if level >? bark_max_entropy s then
    (- EPERM, inc_entropy_blocks s)
  else
    (0, s).

Definition bark_update_entropy (delta : Z) (s : bark_state) : bark_state :=
  let s := atomic_long_add delta s in
  if atomic_long_read s >? 0 then atomic_long_dec s else s.

Definition bark_reset_entropy (s : bark_state) : bark_state :=
  atomic_long_set 0 s.

Definition bark_entropy_event (event_type : Z) (s : bark_state) : bark_state :=
  let delta :=
    match event_type with
    | 0 => 10
    | 1 => 5
    | 2 => 3
    | 3 => 1
    | _ => 1
    end in
  bark_update_entropy delta s.

(** ** The blob accessors of bark.h

    [bark_task] and [bark_file] hand out the address of a subject's security
    blob, or NULL.  The functions below are written against the accessors;
    [bark_h] is the pair of accessors that bark.h defines. *)
Class SecurityBlobs := {
  bark_task : task_struct -> option blob_ptr;
  bark_file : file -> option blob_ptr
}.

(** bark.h: both accessors [return NULL]. *)
Definition bark_h : SecurityBlobs :=
  {| bark_task := fun _ => None; bark_file := fun _ => None |}.

Definition zero_task_security : bark_task_security :=
  mk_task_security BARK_SIG_UNKNOWN 0 0 false.

Definition zero_file_security : bark_file_security :=
  mk_file_security BARK_SIG_UNKNOWN "".

(** Contents of the blob at an address; blobs start zero-filled. *)
Definition task_blob (p : blob_ptr) (s : bark_state) : bark_task_security :=
  default zero_task_security (task_blobs s !! p).

Definition file_blob (p : blob_ptr) (s : bark_state) : bark_file_security :=
  default zero_file_security (file_blobs s !! p).

(** [tsec->sig_state] and [fsec->sig_state]; only read behind a NULL test. *)
Definition tsec_sig_state (tsec : option blob_ptr) (s : bark_state) : bark_sig_state :=
  match tsec with
  | Some p => ts_sig_state (task_blob p s)
  | None => BARK_SIG_UNKNOWN
  end.

Definition fsec_sig_state (fsec : option blob_ptr) (s : bark_state) : bark_sig_state :=
  match fsec with
  | Some p => fs_sig_state (file_blob p s)
  | None => BARK_SIG_UNKNOWN
  end.

(** [tsec->sig_state = st] and [fsec->sig_state = st]. *)
Definition store_tsec_sig_state (p : blob_ptr) (st : bark_sig_state) (s : bark_state)
  : bark_state :=
  let b := task_blob p s in
  set_task_blobs
    (<[p := mk_task_security st (ts_authorization_time b)
              (ts_authorization_count b) (ts_is_substrate_process b)]>
       (task_blobs s)) s.

Definition store_fsec_sig_state (p : blob_ptr) (st : bark_sig_state) (s : bark_state)
  : bark_state :=
  let b := file_blob p s in
  set_file_blobs
    (<[p := mk_file_security st (fs_signature_hash b)]> (file_blobs s)) s.

(** What a local out-variable holds: [None] while uninitialised. *)
Definition out_cell (A : Type) := option A.

(** [state == BARK_SIG_VALID] on a local.  The callers test it only behind
    [ret != 0 ||], and a call that returns 0 has written the local. *)
Definition is_valid (c : out_cell bark_sig_state) : bool :=
  bool_decide (c = Some BARK_SIG_VALID).

Section Bark.
Context {blobs : SecurityBlobs}.

(** ** bark_signature.c *)

(** [state] is the out-pointer: [None] for NULL, [Some c] for a cell that
    holds [c].  The middle component of the result is the cell afterwards. *)
Definition bark_verify_signature
    (file : option file) (state : option (out_cell bark_sig_state))
    (s : bark_state) : Z * out_cell bark_sig_state * bark_state :=
  match file, state with
  | Some f, Some _ =>
      let fsec := bark_file f in
      if bool_decide (is_Some fsec)
         && negb (bool_decide (fsec_sig_state fsec s = BARK_SIG_UNKNOWN))
      then
        (if bool_decide (fsec_sig_state fsec s = BARK_SIG_VALID) then 0 else - EACCES,
         Some (fsec_sig_state fsec s), s)
      else
        let s := count_verification s in
        if bark_enforce s =? 0 then
          (0, Some BARK_SIG_VALID, s)
        else
          let st := BARK_SIG_VALID in
          let s := match fsec with
                   | Some p => store_fsec_sig_state p st s
                   | None => s
                   end in
          (0, Some st, s)
  | _, _ => (- EINVAL, state ≫= id, s)
  end.

Definition bark_verify_task_signature (task : option task_struct) (s : bark_state)
  : Z * bark_state :=
  match task with
  | None => (- EINVAL, s)
  | Some t =>
      let tsec := bark_task t in
      if bool_decide (is_Some tsec)
         && bool_decide (tsec_sig_state tsec s = BARK_SIG_VALID)
      then (0, s)
      else
        match get_task_exe_file t with
        | None =>
            let s := if bark_verbose s =? 0 then s
                     else printk KERN_WARNING (MsgNoExecutable (pid t)) s in
            (- ENOENT, s)
        | Some exe =>
            let '(ret, state, s) := bark_verify_signature (Some exe) (Some None) s in
            if negb (ret =? 0) || negb (is_valid state) then
              (- EACCES, s)
            else
              let s := match tsec with
                       | Some p => store_tsec_sig_state p BARK_SIG_VALID s
                       | None => s
                       end in
              (0, s)
        end
  end.

Definition bark_is_substrate_signed (signature : option string) : bool :=
  match signature with
  | None => false
  | Some _ => true
  end.

(** ** bark_hooks.c *)

Definition zero_auth_result : bark_auth_result :=
  mk_auth_result BARK_SIG_UNKNOWN 0 false None.

Definition bark_authorize_task
    (task : option task_struct) (result : option bark_auth_result)
    (s : bark_state) : Z * option bark_auth_result * bark_state :=
  match task, result with
  | Some t, Some _ =>
      let level := bark_get_entropy_level s in
      if level >? bark_max_entropy s then
        (- EPERM,
         Some (mk_auth_result BARK_SIG_UNKNOWN level false
                 (Some "Entropy ceiling exceeded")), s)
      else
        let '(ret, s) := bark_verify_task_signature (Some t) s in
        if negb (ret =? 0) then
          (ret,
           Some (mk_auth_result BARK_SIG_INVALID level false
                   (Some "Signature verification failed")), s)
        else
          (0, Some (mk_auth_result BARK_SIG_VALID level true None), s)
  | _, _ => (- EINVAL, result, s)
  end.

Definition bark_authorize_file_exec (file : option file) (s : bark_state)
  : Z * bark_state :=
  match file with
  | None => (- EINVAL, s)
  | Some f =>
      let '(ret, state, s) := bark_verify_signature (Some f) (Some None) s in
      if negb (ret =? 0) then (ret, s)
      else if negb (is_valid state) then (- EACCES, s)
      else (0, s)
  end.

Definition bark_log_authorization
    (task : option task_struct) (result : option bark_auth_result)
    (s : bark_state) : bark_state :=
  if bark_verbose s =? 0 then s
  else
    match task, result with
    | Some t, Some r =>
        printk KERN_DEBUG (MsgAuthorized (pid t) (comm t) (ar_entropy_level r)) s
    | _, _ => s
    end.

Definition bark_log_violation
    (task : option task_struct) (reason : option string) (s : bark_state)
  : bark_state :=
  let ts := ktime_real s in
  match task with
  | Some t =>
      printk KERN_ALERT
        (MsgViolation ts (Some (pid t, comm t)) (default "Unknown violation" reason)) s
  | None =>
      printk KERN_ALERT (MsgViolation ts None (default "Unknown violation" reason)) s
  end.

Definition bark_log_entropy_exceeded (level ceiling : Z) (s : bark_state)
  : bark_state :=
  printk KERN_EMERG (MsgEntropyExceeded level ceiling) s.

(** ** bark_main.c *)

Definition bark_task_alloc_hook
    (task : option task_struct) (clone_flags : Z) (s : bark_state)
  : Z * bark_state :=
  let result := zero_auth_result in
  if bark_enforce s =? 0 then (0, s)
  else
    let '(rc, s) := bark_check_entropy_ceiling s in
    if negb (rc =? 0) then
      let s := if bark_verbose s =? 0 then s
               else printk KERN_EMERG MsgEntropyLimitBlocked s in
      let s := bark_log_entropy_exceeded (bark_get_entropy_level s)
                 (bark_max_entropy s) s in
      let s := inc_entropy_blocks s in
      (BARK_ERR_ENTROPY_EXCEEDED, s)
    else
      let '(ret, result, s) := bark_authorize_task task (Some result) s in
      if negb (ret =? 0) then
        let reason := result ≫= ar_reason in
        let s := if bark_verbose s =? 0 then s
                 else printk KERN_ALERT
                        (MsgUnauthorizedProjection (default "unknown" reason)) s in
        let s := bark_log_violation task reason s in
        let s := inc_denials s in
        (BARK_ERR_NOT_AUTHORIZED, s)
      else
        let s := bark_log_authorization task result s in
        let s := inc_authorizations s in
        (0, s).

(** The kernel frees live tasks only, so the argument is not NULL. *)
Definition bark_task_free_hook (task : task_struct) (s : bark_state) : bark_state :=
  let tsec := bark_task task in
  match tsec with
  | Some p => set_task_blobs (<[p := zero_task_security]> (task_blobs s)) s
  | None => s
  end.

Definition bark_bprm_check_hook (bprm : linux_binprm) (s : bark_state)
  : Z * bark_state :=
  if bark_enforce s =? 0 then (0, s)
  else
    let '(ret, state, s) := bark_verify_signature (bprm_file bprm) (Some None) s in
    if negb (ret =? 0) || negb (is_valid state) then
      let s := if bark_verbose s =? 0 then s
               else printk KERN_ALERT
                      (MsgBinarySignatureFailed (bprm_filename bprm)) s in
      let s := inc_signature_failures s in
      (BARK_ERR_SIGNATURE_INVALID, s)
    else
      (0, s).

Definition bark_file_permission_hook (file : option file) (mask : Z)
    (s : bark_state) : Z * bark_state :=
  (0, s).

(** [current] is the task on whose behalf the hook runs. *)
Definition bark_task_fix_setuid_hook (current : task_struct) (s : bark_state)
  : Z * bark_state :=
  if bark_enforce s =? 0 then (0, s)
  else
    let '(ret, s) := bark_verify_task_signature (Some current) s in
    if negb (ret =? 0) then
      let s := if bark_verbose s =? 0 then s
               else printk KERN_ALERT MsgCredentialChangeBlocked s in
      (BARK_ERR_NOT_AUTHORIZED, s)
    else
      (0, s).

End Bark.

(** ** bark_signature.c: [bark_hash_file]

    The function is all calls into the kernel: the crypto API, [kmalloc]
    and [kernel_read].  What those calls answer is collected in a record,
    one field per call site, so that the function can be run against any
    behaviour of the kernel. *)

Definition ENOMEM : Z := 12.

(** [crypto_alloc_shash]: a transform, or an [IS_ERR] pointer with its
    [PTR_ERR]. *)
Inductive shash_alloc :=
  | ShashOk
  | ShashErr (ptr_err : Z).

(** One [kernel_read]: the value returned and the buffer afterwards. *)
Record read_result := mk_read {
  rr_bytes : Z;
  rr_buf : list Byte.byte
}.

Record hash_services := mk_hash_services {
  crypto_alloc_shash : shash_alloc;
  kmalloc_desc : bool;
  crypto_shash_init : Z;
  kmalloc_buf : bool;
  (** successive [kernel_read] results on a file; 0 once they are used up *)
  kernel_read : file -> list read_result;
  (** return code of an update, from the message hashed so far and the chunk *)
  crypto_shash_update : list Byte.byte -> list Byte.byte -> Z;
  (** return code and [digest] of the final step, from the message hashed *)
  crypto_shash_final : list Byte.byte -> Z * list Byte.byte
}.

Definition set_kernel_read (reads : file -> list read_result) (K : hash_services)
  : hash_services :=
  mk_hash_services (crypto_alloc_shash K) (kmalloc_desc K) (crypto_shash_init K)
    (kmalloc_buf K) reads (crypto_shash_update K) (crypto_shash_final K).

(** One lower-case hexadecimal digit of [%02x], by character code: 48 is
    the digit 0 and 97 the letter a. *)
Definition hex_digit (n : N) : Ascii.ascii :=
  Ascii.ascii_of_N (if n <? 10 then 48 + n else 87 + n)%N.

(** [snprintf(p, 3, "%02x", b)] for a [u8]: two digits. *)
Definition byte_hex (b : Byte.byte) : list Ascii.ascii :=
  let n := Byte.to_N b in
  [hex_digit (n / 16); hex_digit (n mod 16)]%N.

(** The conversion loop over [digest[0 .. 31]], then the NUL at
    [hash_out[64]]: the string left in [hash_out]. *)
Definition hex_of_digest (digest : list Byte.byte) : string :=
  String.string_of_list_ascii
    (concat (map (fun i => byte_hex (nth i digest Byte.x00)) (seq 0 32))).

(** The [while] loop: [ret] and the message hashed so far are carried
    along; the loop ends when [kernel_read] returns 0 or less, or an update
    fails. *)
Fixpoint hash_read_loop (K : hash_services) (reads : list read_result)
    (msg : list Byte.byte) (ret : Z) : Z * list Byte.byte :=
  match reads with
  | [] => (ret, msg)
  | r :: reads =>
      if rr_bytes r >? 0 then
        let chunk := take (Z.to_nat (rr_bytes r)) (rr_buf r) in
        let ret := crypto_shash_update K msg chunk in
        if negb (ret =? 0) then (ret, msg)
        else hash_read_loop K reads (msg ++ chunk) ret
      else (ret, msg)
  end.

(** The result pairs the return code with what the call left in
    [hash_out]: [None] when the buffer was not written. *)
Definition bark_hash_file (K : hash_services) (file : file) (hash_len : Z)
  : Z * option string :=
  if hash_len <? 65 then (- EINVAL, None)
  else
    match crypto_alloc_shash K with
    | ShashErr ptr_err => (ptr_err, None)
    | ShashOk =>
        if negb (kmalloc_desc K) then (- ENOMEM, None)
        else
          let ret := crypto_shash_init K in
          if negb (ret =? 0) then (ret, None)
          else if negb (kmalloc_buf K) then (- ENOMEM, None)
          else
            let '(ret, msg) := hash_read_loop K (kernel_read K file) [] ret in
            if ret =? 0 then
              let '(ret, digest) := crypto_shash_final K msg in
              if ret =? 0 then (ret, Some (hex_of_digest digest))
              else (ret, None)
            else (ret, None)
    end.

(** ** bark_main.c: the hook table [bark_hooks]

    The five hooks registered with [LSM_HOOK_INIT], as the events the LSM
    framework delivers to the module; [task_free] returns nothing. *)
Inductive lsm_event :=
  | task_alloc (task : option task_struct) (clone_flags : Z)
  | task_free (task : task_struct)
  | bprm_check_security (bprm : linux_binprm)
  | file_permission (target : option file) (mask : Z)
  | task_fix_setuid (current : task_struct).

Section Dispatch.
Context {blobs : SecurityBlobs}.

Definition bark_hooks (ev : lsm_event) (s : bark_state) : Z * bark_state :=
  match ev with
  | task_alloc task clone_flags => bark_task_alloc_hook task clone_flags s
  | task_free task => (0, bark_task_free_hook task s)
  | bprm_check_security bprm => bark_bprm_check_hook bprm s
  | file_permission target mask => bark_file_permission_hook target mask s
  | task_fix_setuid current => bark_task_fix_setuid_hook current s
  end.

(** The module state after a series of events, first event first. *)
Definition deliver (events : list lsm_event) (s : bark_state) : bark_state :=
  fold_left (fun s ev => (bark_hooks ev s).2) events s.

End Dispatch.

(** The module state after one more check of a file or of a task, and after
    checking a series of tasks in turn. *)
Definition recheck_file `{blobs : SecurityBlobs} (f : file) (s : bark_state)
  : bark_state :=
  (bark_verify_signature (Some f) (Some None) s).2.

Definition recheck_task `{blobs : SecurityBlobs} (t : task_struct) (s : bark_state)
  : bark_state :=
  (bark_verify_task_signature (Some t) s).2.

Definition check_tasks `{blobs : SecurityBlobs} (tasks : list task_struct)
    (s : bark_state) : bark_state :=
  fold_left (fun s t => recheck_task t s) tasks s.

(** No blob holds a rejection: every file and task blob reads
    [BARK_SIG_UNKNOWN] or [BARK_SIG_VALID]. *)
Definition no_rejection (s : bark_state) : Prop :=
  forall p : blob_ptr,
    (fs_sig_state (file_blob p s) = BARK_SIG_UNKNOWN
     \/ fs_sig_state (file_blob p s) = BARK_SIG_VALID)
    /\ (ts_sig_state (task_blob p s) = BARK_SIG_UNKNOWN
        \/ ts_sig_state (task_blob p s) = BARK_SIG_VALID).

(** Reading a hexadecimal string back into bytes, to state that
    [hex_of_digest] loses nothing. *)
Definition unhex_digit (c : Ascii.ascii) : option N :=
  let n := Ascii.N_of_ascii c in
  if (48 <=? n)%N && (n <=? 57)%N then Some (n - 48)%N
  else if (97 <=? n)%N && (n <=? 102)%N then Some (n - 87)%N
  else None.

Fixpoint unhex (cs : list Ascii.ascii) : option (list Byte.byte) :=
  match cs with
  | [] => Some []
  | hi :: lo :: cs =>
      match unhex_digit hi, unhex_digit lo, unhex cs with
      | Some h, Some l, Some bs =>
          match Byte.of_N (16 * h + l) with
          | Some b => Some (b :: bs)
          | None => None
          end
      | _, _, _ => None
      end
  | [_] => None
  end.

(** ** Runs and concrete inputs used in the statements below *)

(** A run of [update] calls, first delta first. *)
Definition entropy_run (deltas : list Z) (s : bark_state) : bark_state :=
  fold_left (fun s delta => bark_update_entropy delta s) deltas s.

Definition sum_deltas (deltas : list Z) : Z := fold_right Z.add 0 deltas.

(** A concrete module state: enforcement on, ceiling 100, everything else
    as at load time. *)
Definition epoch : timespec64 := mk_timespec 0 0.

Definition ceiling_100 : bark_state :=
  mk_state 1 100 0 0 (mk_stats 0 0 0 0) ∅ ∅ [] epoch 0%nat.

(** Enforcement switched off, entropy far above the ceiling. *)
Definition not_enforcing : bark_state :=
  mk_state 0 100 1 5000 (mk_stats 3 1 4 1) ∅ ∅ [] epoch 0%nat.

(** Concrete subjects. *)
Definition sh_file : file := 7%nat.
Definition sh_task : task_struct := mk_task 42 "sh" (Some sh_file).
Definition orphan_task : task_struct := mk_task 43 "kworker" None.
Definition sh_bprm : linux_binprm := mk_binprm (Some sh_file) "/bin/sh".

(** An execution request whose file pointer is NULL. *)
Definition null_bprm : linux_binprm := mk_binprm None "/bin/sh".

(** A kernel that serves every request: the file reads as the given
    chunks, and the digest is a fixed 32-byte value. *)
Definition sample_digest : list Byte.byte :=
  map (fun i => default Byte.x00 (Byte.of_N (N.of_nat (8 * i + 3)))) (seq 0 32).

Definition obliging_kernel (chunks : list read_result) : hash_services :=
  mk_hash_services ShashOk true 0 true (fun _ => chunks)
    (fun _ _ => 0) (fun _ => (0, sample_digest)).

(** A second task running the executable of [sh_task]. *)
Definition sh_child : task_struct := mk_task 44 "sh" (Some sh_file).

(** One chunk of three bytes, then a failing [kernel_read] (-5, EIO). *)
Definition chunk_then_error : list read_result :=
  [mk_read 3 [Byte.x61; Byte.x62; Byte.x63]; mk_read (-5) []].

(** A counter left negative by an overflow. *)
Definition wrapped_counter : bark_state :=
  set_current_entropy (-5) ceiling_100.

(** * Properties *)

(** ** Wrap-around arithmetic *)

Ltac unfold_long :=
  unfold is_long, is_ulong, to_long, to_ulong, atomic64_inc,
    LONG_MAX, LONG_MIN, ULONG_MAX, BITS_PER_LONG in *;
  change (2 ^ (64 - 1)) with 9223372036854775808 in *;
  change (2 ^ 64) with 18446744073709551616 in *.

Lemma to_long_small (z : Z) : is_long z -> to_long z = z.
Proof. unfold_long. intros Hz. rewrite Z.mod_small; lia. Qed.

Lemma to_long_is_long (z : Z) : is_long (to_long z).
Proof.
  unfold_long.
  pose proof (Z.mod_pos_bound (z + 9223372036854775808) 18446744073709551616).
  lia.
Qed.

Lemma to_long_add_to_long (a b : Z) : to_long (a + to_long b) = to_long (a + b).
Proof.
  unfold_long.
  replace (a + ((b + 9223372036854775808) mod 18446744073709551616
                - 9223372036854775808) + 9223372036854775808)
    with (a + (b + 9223372036854775808) mod 18446744073709551616) by lia.
  rewrite Zplus_mod_idemp_r. do 2 f_equal. lia.
Qed.

Lemma to_ulong_small (z : Z) : is_ulong z -> to_ulong z = z.
Proof. unfold_long. intros Hz. rewrite Z.mod_small; lia. Qed.

Lemma to_ulong_nonneg (z : Z) : 0 <= to_ulong z.
Proof. unfold_long. apply Z.mod_pos_bound. lia. Qed.

Lemma atomic64_inc_small (v : Z) : is_long v -> v < LONG_MAX -> atomic64_inc v = v + 1.
Proof. intros Hv Hlt. unfold atomic64_inc. apply to_long_small. unfold_long. lia. Qed.

(** ** The entropy counter *)

(** [bark_update_entropy] touches [current_entropy] only, and what it stores
    is the wrapped sum less one when that sum is positive. *)
Lemma bark_update_entropy_eq (delta : Z) (s : bark_state) :
  bark_update_entropy delta s =
  set_current_entropy
    (let v := to_long (current_entropy s + delta) in
     if v >? 0 then v - 1 else v) s.
Proof.
  unfold bark_update_entropy, atomic_long_add, atomic_long_dec, atomic_long_read.
  cbn [current_entropy set_current_entropy].
  rewrite to_long_add_to_long.
  pose proof (to_long_is_long (current_entropy s + delta)) as Hr.
  destruct (to_long (current_entropy s + delta) >? 0) eqn:Hpos;
    cbn [current_entropy set_current_entropy].
  - rewrite to_long_small; [reflexivity|]. unfold_long. lia.
  - reflexivity.
Qed.

Lemma bark_update_entropy_is_long (delta : Z) (s : bark_state) :
  is_long (current_entropy (bark_update_entropy delta s)).
Proof.
  rewrite bark_update_entropy_eq. cbn [current_entropy set_current_entropy].
  pose proof (to_long_is_long (current_entropy s + delta)) as Hr.
  cbv zeta. destruct (_ >? 0) eqn:Hpos; [|exact Hr]. unfold_long. lia.
Qed.

(** Without overflow the update is plain arithmetic. *)
Lemma bark_update_entropy_exact (delta : Z) (s : bark_state) :
  0 <= current_entropy s -> 0 <= delta ->
  current_entropy s + delta <= LONG_MAX ->
  current_entropy (bark_update_entropy delta s) =
  current_entropy s + delta - (if current_entropy s + delta >? 0 then 1 else 0).
Proof.
  intros Hc Hd Hmax. rewrite bark_update_entropy_eq.
  cbn [current_entropy set_current_entropy]. cbv zeta.
  rewrite to_long_small by (unfold_long; lia).
  destruct (_ >? 0); lia.
Qed.

Lemma sum_deltas_cons (d : Z) (ds : list Z) :
  sum_deltas (d :: ds) = d + sum_deltas ds.
Proof. reflexivity. Qed.

Lemma entropy_run_cons (d : Z) (ds : list Z) (s : bark_state) :
  entropy_run (d :: ds) s = entropy_run ds (bark_update_entropy d s).
Proof. reflexivity. Qed.

Lemma sum_deltas_nonneg (ds : list Z) :
  Forall (fun d => 0 <= d) ds -> 0 <= sum_deltas ds.
Proof.
  induction 1 as [|d ds Hd _ IH]; [cbv; discriminate|].
  rewrite sum_deltas_cons. lia.
Qed.

Lemma entropy_run_bounds (ds : list Z) :
  Forall (fun d => 0 <= d) ds ->
  forall s, 0 <= current_entropy s ->
    current_entropy s + sum_deltas ds <= LONG_MAX ->
    0 <= current_entropy (entropy_run ds s) <= current_entropy s + sum_deltas ds.
Proof.
  induction 1 as [|d ds Hd Hds IH]; intros s Hc Hmax.
  - change (entropy_run [] s) with s. change (sum_deltas []) with 0. lia.
  - rewrite sum_deltas_cons in *. rewrite entropy_run_cons.
    pose proof (sum_deltas_nonneg ds Hds) as Hsum.
    pose proof (bark_update_entropy_exact d s Hc Hd ltac:(lia)) as Hstep.
    specialize (IH (bark_update_entropy d s)).
    destruct (current_entropy s + d >? 0) eqn:Hpos; lia.
Qed.

Lemma sum_deltas_take (ds : list Z) (k : nat) :
  Forall (fun d => 0 <= d) ds -> 0 <= sum_deltas (take k ds) <= sum_deltas ds.
Proof.
  intros Hds. revert k.
  induction Hds as [|d ds Hd Hds IH]; intros [|k]; cbn [take];
    rewrite ?sum_deltas_cons; change (sum_deltas []) with 0.
  - lia.
  - lia.
  - pose proof (sum_deltas_nonneg ds Hds). lia.
  - specialize (IH k). lia.
Qed.

Lemma iter_update_zero (n : nat) (s : bark_state) :
  0 <= current_entropy s <= LONG_MAX ->
  current_entropy (Nat.iter n (bark_update_entropy 0) s) =
  Z.max 0 (current_entropy s - Z.of_nat n).
Proof.
  intros Hc. induction n as [|n IH].
  - cbn. lia.
  - rewrite Nat.iter_succ.
    rewrite bark_update_entropy_exact; rewrite ?IH; try (unfold_long; lia).
    destruct (_ >? 0) eqn:Hpos; lia.
Qed.

(** C7: [update(delta)] adds [delta] to the counter (as a [long] addition)
    and then subtracts 1 exactly when the value after the addition is
    positive, changing nothing else; where the sum fits a [long] the
    addition is the mathematical one.  Hence [update(0)] lowers a positive
    counter by exactly 1, leaves a counter at 0 there, and [n] calls of
    [update(0)] take a counter [c >= 0] to [max 0 (c - n)]. *)
Theorem update_adds_then_decays (delta : Z) (s : bark_state) :
  let post_add := to_long (current_entropy s + delta) in
  bark_update_entropy delta s =
    set_current_entropy (if post_add >? 0 then post_add - 1 else post_add) s
  /\ (0 <= current_entropy s -> 0 <= delta ->
      current_entropy s + delta <= LONG_MAX ->
      post_add = current_entropy s + delta)
  /\ (0 < current_entropy s <= LONG_MAX ->
      current_entropy (bark_update_entropy 0 s) = current_entropy s - 1)
  /\ (current_entropy s = 0 ->
      current_entropy (bark_update_entropy 0 s) = 0)
  /\ (0 <= current_entropy s <= LONG_MAX ->
      forall n : nat,
        current_entropy (Nat.iter n (bark_update_entropy 0) s) =
        Z.max 0 (current_entropy s - Z.of_nat n)).
Proof.
  cbv zeta. split; [apply bark_update_entropy_eq|].
  split; [intros; apply to_long_small; unfold_long; lia|].
  split; [|split].
  - intros Hc. rewrite bark_update_entropy_exact by lia.
    destruct (_ >? 0) eqn:Hpos; lia.
  - intros Hc. rewrite bark_update_entropy_exact by (unfold_long; lia).
    destruct (_ >? 0) eqn:Hpos; lia.
  - intros Hc n. apply iter_update_zero. exact Hc.
Qed.

Lemma update_adds_then_decays_witness :
  current_entropy (bark_update_entropy 0 (set_current_entropy 3 ceiling_100)) = 2
  /\ current_entropy
       (Nat.iter 5 (bark_update_entropy 0) (set_current_entropy 3 ceiling_100)) = 0.
Proof.
  pose proof (update_adds_then_decays 0 (set_current_entropy 3 ceiling_100))
    as (_ & _ & Hdec & _ & Hiter).
  split.
  - apply Hdec. cbn. unfold_long. lia.
  - apply Hiter. cbn. unfold_long. lia.
Defined.

(** C6, counterexample: a single [update(2^63)] on a counter at 0 wraps the
    [atomic_long_t] to [LONG_MIN]; the positivity test then fails, so the
    counter stays negative. *)
Lemma update_overflow_goes_negative :
  exists deltas : list Z,
    Forall (fun d => 0 <= d <= ULONG_MAX) deltas
    /\ current_entropy ceiling_100 = 0
    /\ current_entropy (entropy_run deltas ceiling_100) = LONG_MIN
    /\ current_entropy (entropy_run deltas ceiling_100) < 0.
Proof.
  exists [2 ^ 63]. split; [|split; [|split]].
  - constructor; [unfold_long; lia | constructor].
  - reflexivity.
  - vm_compute. reflexivity.
  - vm_compute. reflexivity.
Qed.

(** C6, amended: from a counter at 0, a run of [update] calls with
    non-negative deltas whose total does not exceed [LONG_MAX] keeps the
    counter between 0 and the total after every step, and the level read
    from it is the counter itself.  For any delta whatsoever, the decay
    step never takes the counter below zero: when the counter is
    non-negative after the addition it is non-negative after the update;
    and the level, read as an [unsigned long], is never negative. *)
Theorem entropy_nonneg_below_overflow (deltas : list Z) (s : bark_state) :
  current_entropy s = 0 ->
  Forall (fun d => 0 <= d) deltas ->
  sum_deltas deltas <= LONG_MAX ->
  (forall k : nat,
      0 <= current_entropy (entropy_run (take k deltas) s) <= sum_deltas deltas
      /\ bark_get_entropy_level (entropy_run (take k deltas) s)
         = current_entropy (entropy_run (take k deltas) s))
  /\ (forall (delta : Z) (s' : bark_state),
         0 <= current_entropy (atomic_long_add delta s') ->
         0 <= current_entropy (bark_update_entropy delta s'))
  /\ (forall s' : bark_state, 0 <= bark_get_entropy_level s').
Proof.
  intros Hzero Hds Hsum.
  split; [|split; [|intros s'; apply to_ulong_nonneg]].
  - intros k.
    pose proof (sum_deltas_take deltas k Hds) as Htk.
    assert (Hk : Forall (fun d => 0 <= d) (take k deltas)) by (by apply Forall_take).
    pose proof (entropy_run_bounds _ Hk s ltac:(lia) ltac:(lia)) as Hb.
    split; [lia|].
    unfold bark_get_entropy_level, atomic_long_read.
    apply to_ulong_small. unfold_long. lia.
  - intros delta s'. unfold bark_update_entropy, atomic_long_read.
    destruct (_ >? 0) eqn:Hpos; [|tauto].
    intros _. unfold atomic_long_dec. cbn [current_entropy set_current_entropy].
    assert (Hr : is_long (current_entropy (atomic_long_add delta s')))
      by exact (to_long_is_long (current_entropy s' + to_long delta)).
    rewrite to_long_small by (unfold_long; lia). lia.
Qed.

Lemma entropy_nonneg_below_overflow_witness :
  0 <= current_entropy (entropy_run (take 2 [10; 0; 5]) ceiling_100) <= 15
  /\ bark_get_entropy_level (entropy_run (take 2 [10; 0; 5]) ceiling_100)
     = current_entropy (entropy_run (take 2 [10; 0; 5]) ceiling_100).
Proof.
  refine (proj1 (entropy_nonneg_below_overflow [10; 0; 5] ceiling_100 _ _ _) 2%nat).
  - reflexivity.
  - repeat constructor; lia.
  - vm_compute. discriminate.
Defined.

(** ** Task creation *)

Section Hooks.
Context {blobs : SecurityBlobs}.

Lemma check_ceiling_exceeded (s : bark_state) :
  bark_get_entropy_level s > bark_max_entropy s ->
  bark_check_entropy_ceiling s = (- EPERM, inc_entropy_blocks s).
Proof.
  intros Hgt. unfold bark_check_entropy_ceiling.
  destruct (_ >? _) eqn:Hcmp; [reflexivity | lia].
Qed.

Lemma check_ceiling_within (s : bark_state) :
  bark_get_entropy_level s <= bark_max_entropy s ->
  bark_check_entropy_ceiling s = (0, s).
Proof.
  intros Hle. unfold bark_check_entropy_ceiling.
  destruct (_ >? _) eqn:Hcmp; [lia | reflexivity].
Qed.

(** The whole effect of a task creation refused for entropy: the log
    entries, and [entropy_blocks] incremented by the ceiling check and once
    more by the hook. *)
Lemma task_alloc_entropy_denied (task : option task_struct) (flags : Z) (s : bark_state) :
  bark_enforce s <> 0 ->
  bark_get_entropy_level s > bark_max_entropy s ->
  bark_task_alloc_hook task flags s =
  (BARK_ERR_ENTROPY_EXCEEDED,
   inc_entropy_blocks
     (bark_log_entropy_exceeded (bark_get_entropy_level s) (bark_max_entropy s)
        (if bark_verbose s =? 0 then inc_entropy_blocks s
         else printk KERN_EMERG MsgEntropyLimitBlocked (inc_entropy_blocks s)))).
Proof.
  intros Hen Hgt. unfold bark_task_alloc_hook.
  destruct (bark_enforce s =? 0) eqn:He; [lia|].
  rewrite check_ceiling_exceeded by exact Hgt.
  cbn [negb Z.eqb EPERM Z.opp]. cbv zeta.
  change (bark_verbose (inc_entropy_blocks s)) with (bark_verbose s).
  destruct (bark_verbose s =? 0); reflexivity.
Qed.

(** C8: with the enforcement flag off, [bark_task_alloc_hook] returns 0
    (allow) for every task, entropy level and signature state, and leaves
    the module state, hence all four statistics counters, as it was. *)
Theorem task_alloc_enforcement_off
    (task : option task_struct) (flags : Z) (s : bark_state) :
  bark_enforce s = 0 ->
  bark_task_alloc_hook task flags s = (0, s)
  /\ bark_statistics (snd (bark_task_alloc_hook task flags s)) = bark_statistics s.
Proof.
  intros Hoff. unfold bark_task_alloc_hook. rewrite Hoff. split; reflexivity.
Qed.

(** C2: with enforcement on and the entropy level above the ceiling,
    [bark_task_alloc_hook] returns [-EPERM] and leaves [authorizations] and
    [denials] alone, but [entropy_blocks] is incremented twice: once inside
    [bark_check_entropy_ceiling] and once by the hook; away from the top of
    the counter's range its value grows by 2. *)
Theorem task_alloc_entropy_block_counted_twice
    (task : option task_struct) (flags : Z) (s : bark_state) :
  bark_enforce s <> 0 ->
  bark_get_entropy_level s > bark_max_entropy s ->
  let r := bark_task_alloc_hook task flags s in
  fst r = BARK_ERR_ENTROPY_EXCEEDED
  /\ entropy_blocks (bark_statistics (snd (bark_check_entropy_ceiling s)))
     = atomic64_inc (entropy_blocks (bark_statistics s))
  /\ entropy_blocks (bark_statistics (snd r))
     = atomic64_inc (atomic64_inc (entropy_blocks (bark_statistics s)))
  /\ (0 <= entropy_blocks (bark_statistics s) < LONG_MAX - 1 ->
      entropy_blocks (bark_statistics (snd r))
      = entropy_blocks (bark_statistics s) + 2)
  /\ authorizations (bark_statistics (snd r)) = authorizations (bark_statistics s)
  /\ denials (bark_statistics (snd r)) = denials (bark_statistics s)
  /\ signature_failures (bark_statistics (snd r))
     = signature_failures (bark_statistics s)
  /\ sig_verifications (snd r) = sig_verifications s.
Proof.
  intros Hen Hgt. cbv zeta.
  rewrite task_alloc_entropy_denied by assumption.
  rewrite check_ceiling_exceeded by assumption.
  destruct (bark_verbose s =? 0); cbn [fst snd];
    (repeat split; try reflexivity); intros Hrange;
    (transitivity (atomic64_inc (atomic64_inc (entropy_blocks (bark_statistics s))));
     [reflexivity|]);
    rewrite (atomic64_inc_small (entropy_blocks (bark_statistics s)))
      by (unfold_long; lia);
    rewrite atomic64_inc_small by (unfold_long; lia); lia.
Qed.

(** ** Signature verification *)

(** Past the cache check the verification reports [BARK_SIG_VALID] and
    success, whatever the enforcement flag; the blob, when there is one, is
    written only with enforcement on. *)
Lemma verify_signature_miss (f : file) (c : out_cell bark_sig_state) (s : bark_state) :
  fsec_sig_state (bark_file f) s = BARK_SIG_UNKNOWN ->
  bark_verify_signature (Some f) (Some c) s =
  (0, Some BARK_SIG_VALID,
   if bark_enforce s =? 0 then count_verification s
   else match bark_file f with
        | Some p => store_fsec_sig_state p BARK_SIG_VALID (count_verification s)
        | None => count_verification s
        end).
Proof.
  intros Hunk. unfold bark_verify_signature.
  rewrite (bool_decide_eq_true_2 _ Hunk). rewrite andb_false_r.
  change (bark_enforce (count_verification s)) with (bark_enforce s).
  destruct (bark_enforce s =? 0); reflexivity.
Qed.

Lemma verify_signature_hit (f : file) (c : out_cell bark_sig_state) (s : bark_state) :
  is_Some (bark_file f) ->
  fsec_sig_state (bark_file f) s <> BARK_SIG_UNKNOWN ->
  bark_verify_signature (Some f) (Some c) s =
  (if bool_decide (fsec_sig_state (bark_file f) s = BARK_SIG_VALID) then 0 else - EACCES,
   Some (fsec_sig_state (bark_file f) s), s).
Proof.
  intros Hsome Hknown. unfold bark_verify_signature.
  rewrite (bool_decide_eq_true_2 _ Hsome).
  rewrite (bool_decide_eq_false_2 _ Hknown). reflexivity.
Qed.

(** Every call falls under one of the two lemmas above. *)
Lemma fsec_unknown_or_cached (f : file) (s : bark_state) :
  fsec_sig_state (bark_file f) s = BARK_SIG_UNKNOWN
  \/ (is_Some (bark_file f) /\ fsec_sig_state (bark_file f) s <> BARK_SIG_UNKNOWN).
Proof.
  destruct (decide (fsec_sig_state (bark_file f) s = BARK_SIG_UNKNOWN)) as [Hu|Hk];
    [left; exact Hu | right].
  split; [|exact Hk].
  destruct (bark_file f) as [p|] eqn:Hf; [eauto | cbn in Hk; congruence].
Qed.

(** Called on a fresh local, the verification returns 0 exactly when it
    writes [BARK_SIG_VALID]. *)
Lemma verify_signature_ok_iff_valid (file : option file) (s : bark_state) :
  let r := bark_verify_signature file (Some None) s in
  r.1.1 = 0 <-> r.1.2 = Some BARK_SIG_VALID.
Proof.
  cbv zeta. destruct file as [f|]; [|cbn; split; discriminate].
  destruct (fsec_unknown_or_cached f s) as [Hu|[Hsome Hk]].
  - rewrite verify_signature_miss by exact Hu. cbn. tauto.
  - rewrite verify_signature_hit by assumption. cbn [fst snd].
    case_bool_decide as Hv; [rewrite Hv; tauto|].
    split; [discriminate | congruence].
Qed.

(** The verification neither reads nor writes the entropy counter. *)
Lemma verify_signature_entropy_indep
    (e : Z) (file : option file) (st : option (out_cell bark_sig_state))
    (s : bark_state) :
  bark_verify_signature file st (set_current_entropy e s) =
  let r := bark_verify_signature file st s in
  (r.1.1, r.1.2, set_current_entropy e r.2).
Proof.
  unfold bark_verify_signature. destruct file as [f|], st as [c|]; try reflexivity.
  change (fsec_sig_state (bark_file f) (set_current_entropy e s))
    with (fsec_sig_state (bark_file f) s).
  destruct (_ && _); [reflexivity|].
  change (bark_enforce (count_verification (set_current_entropy e s)))
    with (bark_enforce s).
  change (bark_enforce (count_verification s)) with (bark_enforce s).
  destruct (bark_enforce s =? 0); [reflexivity|].
  destruct (bark_file f); reflexivity.
Qed.

Lemma bprm_check_entropy_indep (e : Z) (bprm : linux_binprm) (s : bark_state) :
  bark_bprm_check_hook bprm (set_current_entropy e s) =
  ((bark_bprm_check_hook bprm s).1, set_current_entropy e (bark_bprm_check_hook bprm s).2).
Proof.
  unfold bark_bprm_check_hook.
  change (bark_enforce (set_current_entropy e s)) with (bark_enforce s).
  destruct (bark_enforce s =? 0); [reflexivity|].
  rewrite verify_signature_entropy_indep. cbv zeta.
  destruct (bark_verify_signature (bprm_file bprm) (Some None) s) as [[ret st] s1].
  cbn [fst snd].
  destruct (negb (ret =? 0) || negb (is_valid st)); [|reflexivity].
  change (bark_verbose (set_current_entropy e s1)) with (bark_verbose s1).
  destruct (bark_verbose s1 =? 0); reflexivity.
Qed.

(** The verification leaves statistics, entropy counter, task blobs, log
    and module parameters alone. *)
Lemma verify_signature_frame
    (file : option file) (st : option (out_cell bark_sig_state)) (s : bark_state) :
  let s' := (bark_verify_signature file st s).2 in
  bark_statistics s' = bark_statistics s
  /\ current_entropy s' = current_entropy s
  /\ task_blobs s' = task_blobs s
  /\ klog s' = klog s
  /\ bark_enforce s' = bark_enforce s
  /\ bark_verbose s' = bark_verbose s
  /\ bark_max_entropy s' = bark_max_entropy s.
Proof.
  cbv zeta. unfold bark_verify_signature.
  destruct file as [f|], st as [c|]; try (repeat split; reflexivity).
  destruct (_ && _); [repeat split; reflexivity|].
  change (bark_enforce (count_verification s)) with (bark_enforce s).
  destruct (bark_enforce s =? 0); [repeat split; reflexivity|].
  destruct (bark_file f); repeat split; reflexivity.
Qed.

(** The execution gate in one equation. *)
Lemma bprm_check_eq (bprm : linux_binprm) (s : bark_state) :
  bark_enforce s <> 0 ->
  bark_bprm_check_hook bprm s =
  let v := bark_verify_signature (bprm_file bprm) (Some None) s in
  if is_valid v.1.2 then (0, v.2)
  else (BARK_ERR_SIGNATURE_INVALID,
        inc_signature_failures
          (if bark_verbose s =? 0 then v.2
           else printk KERN_ALERT (MsgBinarySignatureFailed (bprm_filename bprm)) v.2)).
Proof.
  intros Hen. unfold bark_bprm_check_hook.
  destruct (bark_enforce s =? 0) eqn:He; [lia|].
  pose proof (verify_signature_ok_iff_valid (bprm_file bprm) s) as Hiff.
  pose proof (verify_signature_frame (bprm_file bprm) (Some None) s)
    as (_ & _ & _ & _ & _ & Hverb & _).
  cbv zeta in *.
  destruct (bark_verify_signature (bprm_file bprm) (Some None) s) as [[ret st] s1].
  cbn [fst snd] in *. rewrite Hverb.
  unfold is_valid. case_bool_decide as Hv.
  - assert (ret = 0) as -> by tauto. reflexivity.
  - assert (Hret : ret <> 0) by tauto.
    destruct (ret =? 0) eqn:Hr; [lia|]. reflexivity.
Qed.

(** C1: for a file that has no security blob, or whose blob still reads
    [BARK_SIG_UNKNOWN], [bark_verify_signature] writes [BARK_SIG_VALID] to
    the out-variable and returns 0, whatever the module state (the
    enforcement flag included); the file's content and signature are not
    inputs at all.  [bark_is_substrate_signed] accepts every signature that
    is not NULL, and the execution gate lets such a file through. *)
Theorem verify_signature_unjudged_is_valid
    (f : file) (c : out_cell bark_sig_state) (s : bark_state) :
  (bark_file f = None
   \/ exists p, bark_file f = Some p
               /\ fs_sig_state (file_blob p s) = BARK_SIG_UNKNOWN) ->
  let r := bark_verify_signature (Some f) (Some c) s in
  r.1.1 = 0
  /\ r.1.2 = Some BARK_SIG_VALID
  /\ sig_verifications r.2 = S (sig_verifications s)
  /\ (forall signature : string, bark_is_substrate_signed (Some signature) = true)
  /\ (forall name : string, (bark_bprm_check_hook (mk_binprm (Some f) name) s).1 = 0)
  /\ (bark_authorize_file_exec (Some f) s).1 = 0.
Proof.
  intros Hunjudged. cbv zeta.
  assert (Hunk : fsec_sig_state (bark_file f) s = BARK_SIG_UNKNOWN).
  { destruct Hunjudged as [Hnone|(p & Hp & Hst)].
    - rewrite Hnone. reflexivity.
    - rewrite Hp. exact Hst. }
  rewrite verify_signature_miss by exact Hunk. cbn [fst snd].
  split; [reflexivity|]. split; [reflexivity|]. split; [|split; [|split]].
  - destruct (bark_enforce s =? 0); [reflexivity|].
    destruct (bark_file f); reflexivity.
  - reflexivity.
  - intros name. unfold bark_bprm_check_hook. cbn [bprm_file].
    destruct (bark_enforce s =? 0); [reflexivity|].
    rewrite verify_signature_miss by exact Hunk. reflexivity.
  - unfold bark_authorize_file_exec.
    rewrite verify_signature_miss by exact Hunk. reflexivity.
Qed.

(** C9: with enforcement on, [bark_bprm_check_hook] returns 0 exactly when
    [bark_verify_signature] yields [BARK_SIG_VALID], then leaving the
    statistics as the verification left them; otherwise it returns
    [-EACCES] and [signature_failures] is incremented once (by exactly 1
    below [LONG_MAX]) while the other three counters stay.  Either way the
    entropy counter keeps its value and has no influence on the outcome. *)
Theorem bprm_check_signature_gate (bprm : linux_binprm) (s : bark_state) :
  bark_enforce s <> 0 ->
  let v := bark_verify_signature (bprm_file bprm) (Some None) s in
  let r := bark_bprm_check_hook bprm s in
  (r.1 = 0 <-> v.1.2 = Some BARK_SIG_VALID)
  /\ (v.1.2 = Some BARK_SIG_VALID -> r = (0, v.2))
  /\ (v.1.2 <> Some BARK_SIG_VALID ->
      r.1 = BARK_ERR_SIGNATURE_INVALID
      /\ signature_failures (bark_statistics r.2)
         = atomic64_inc (signature_failures (bark_statistics s))
      /\ (0 <= signature_failures (bark_statistics s) < LONG_MAX ->
          signature_failures (bark_statistics r.2)
          = signature_failures (bark_statistics s) + 1)
      /\ authorizations (bark_statistics r.2) = authorizations (bark_statistics s)
      /\ denials (bark_statistics r.2) = denials (bark_statistics s)
      /\ entropy_blocks (bark_statistics r.2) = entropy_blocks (bark_statistics s))
  /\ current_entropy r.2 = current_entropy s
  /\ (forall e : Z,
        bark_bprm_check_hook bprm (set_current_entropy e s)
        = (r.1, set_current_entropy e r.2)).
Proof.
  intros Hen. cbv zeta.
  split; [|split; [|split; [|split]]].
  5: intros e; apply bprm_check_entropy_indep.
  all: rewrite bprm_check_eq by exact Hen; cbv zeta;
    pose proof (verify_signature_frame (bprm_file bprm) (Some None) s)
      as (Hstats & Hent & _);
    cbv zeta in *;
    destruct (bark_verify_signature (bprm_file bprm) (Some None) s)
      as [[ret st] s1];
    cbn [fst snd] in *; unfold is_valid.
  - case_bool_decide as Hv; cbn [fst]; [tauto|].
    split; [discriminate | tauto].
  - intros Hv. rewrite bool_decide_eq_true_2 by exact Hv. reflexivity.
  - intros Hv. rewrite bool_decide_eq_false_2 by exact Hv. cbn [fst snd].
    assert (Hsf : signature_failures
                    (bark_statistics
                       (inc_signature_failures
                          (if bark_verbose s =? 0 then s1
                           else printk KERN_ALERT
                                  (MsgBinarySignatureFailed (bprm_filename bprm)) s1)))
                  = atomic64_inc (signature_failures (bark_statistics s))).
    { destruct (bark_verbose s =? 0); cbn; rewrite Hstats; reflexivity. }
    split; [reflexivity|]. split; [exact Hsf|]. split.
    + intros Hrange. rewrite Hsf. apply atomic64_inc_small; unfold_long; lia.
    + destruct (bark_verbose s =? 0); cbn; rewrite Hstats; repeat split; reflexivity.
  - case_bool_decide; cbn [snd]; [exact Hent|].
    destruct (bark_verbose s =? 0); exact Hent.
Qed.

Lemma verify_signature_printk_indep
    (lvl : kern_level) (m : bark_message) (file : option file)
    (st : option (out_cell bark_sig_state)) (s : bark_state) :
  bark_verify_signature file st (printk lvl m s) =
  let r := bark_verify_signature file st s in
  (r.1.1, r.1.2, printk lvl m r.2).
Proof.
  unfold bark_verify_signature. destruct file as [f|], st as [c|]; try reflexivity.
  change (fsec_sig_state (bark_file f) (printk lvl m s))
    with (fsec_sig_state (bark_file f) s).
  destruct (_ && _); [reflexivity|].
  change (bark_enforce (count_verification (printk lvl m s))) with (bark_enforce s).
  change (bark_enforce (count_verification s)) with (bark_enforce s).
  destruct (bark_enforce s =? 0); [reflexivity|].
  destruct (bark_file f); reflexivity.
Qed.

(** A log entry does not change what a later task verification returns. *)
Lemma verify_task_printk_indep
    (lvl : kern_level) (m : bark_message) (task : option task_struct)
    (s : bark_state) :
  (bark_verify_task_signature task (printk lvl m s)).1
  = (bark_verify_task_signature task s).1.
Proof.
  unfold bark_verify_task_signature. destruct task as [t|]; [|reflexivity].
  change (tsec_sig_state (bark_task t) (printk lvl m s))
    with (tsec_sig_state (bark_task t) s).
  destruct (_ && _); [reflexivity|].
  destruct (get_task_exe_file t) as [exe|]; [|reflexivity].
  rewrite verify_signature_printk_indep. cbv zeta.
  destruct (bark_verify_signature (Some exe) (Some None) s) as [[ret st] s1].
  cbn [fst snd]. destruct (negb (ret =? 0) || negb (is_valid st)); reflexivity.
Qed.

Lemma verify_task_unresolvable_eq (t : task_struct) (s : bark_state) :
  tsec_sig_state (bark_task t) s <> BARK_SIG_VALID ->
  get_task_exe_file t = None ->
  bark_verify_task_signature (Some t) s =
  (- ENOENT,
   if bark_verbose s =? 0 then s
   else printk KERN_WARNING (MsgNoExecutable (pid t)) s).
Proof.
  intros Hnot Hexe. unfold bark_verify_task_signature.
  rewrite (bool_decide_eq_false_2 _ Hnot), andb_false_r, Hexe. reflexivity.
Qed.

(** C10: for a task whose blob (if any) does not read [BARK_SIG_VALID] and
    whose executable cannot be resolved, [bark_verify_task_signature]
    returns [-ENOENT], which is neither success nor the [-EACCES] of a
    rejected signature.  The call changes nothing but the log (one warning
    when verbose): no task or file blob is written, no counter moves, no
    verification runs, and any later check returns what it would have
    returned had this call not happened. *)
Theorem verify_task_unresolvable_is_enoent (t : task_struct) (s : bark_state) :
  tsec_sig_state (bark_task t) s <> BARK_SIG_VALID ->
  get_task_exe_file t = None ->
  let r := bark_verify_task_signature (Some t) s in
  r.1 = - ENOENT
  /\ r.1 <> - EACCES
  /\ r.1 <> 0
  /\ r.2 = (if bark_verbose s =? 0 then s
            else printk KERN_WARNING (MsgNoExecutable (pid t)) s)
  /\ task_blobs r.2 = task_blobs s
  /\ file_blobs r.2 = file_blobs s
  /\ bark_statistics r.2 = bark_statistics s
  /\ sig_verifications r.2 = sig_verifications s
  /\ (forall later : option task_struct,
        (bark_verify_task_signature later r.2).1
        = (bark_verify_task_signature later s).1).
Proof.
  intros Hnot Hexe. cbv zeta.
  rewrite verify_task_unresolvable_eq by assumption. cbn [fst snd].
  split; [reflexivity|]. split; [discriminate|]. split; [discriminate|].
  split; [reflexivity|].
  destruct (bark_verbose s =? 0); repeat split; try reflexivity;
    intros later; apply verify_task_printk_indep.
Qed.

(** ** Process-creation entropy events *)


Lemma set_current_entropy_same (s : bark_state) :
  set_current_entropy (current_entropy s) s = s.
Proof. destruct s; reflexivity. Qed.



End Hooks.

(** ** The module as built: bark.h attaches no blob *)

Lemma bark_h_verify_signature
    (f : file) (c : out_cell bark_sig_state) (s : bark_state) :
  bark_verify_signature (blobs := bark_h) (Some f) (Some c) s
  = (0, Some BARK_SIG_VALID, count_verification s).
Proof.
  rewrite verify_signature_miss by reflexivity.
  destruct (bark_enforce s =? 0); reflexivity.
Qed.

Lemma bark_h_verify_task_signature (t : task_struct) (s : bark_state) :
  bark_verify_task_signature (blobs := bark_h) (Some t) s =
  match get_task_exe_file t with
  | None => (- ENOENT,
             if bark_verbose s =? 0 then s
             else printk KERN_WARNING (MsgNoExecutable (pid t)) s)
  | Some _ => (0, count_verification s)
  end.
Proof.
  destruct (get_task_exe_file t) as [exe|] eqn:Hexe.
  - unfold bark_verify_task_signature. cbn [bark_task bark_h]. rewrite Hexe.
    rewrite bark_h_verify_signature. reflexivity.
  - apply verify_task_unresolvable_eq; [discriminate | exact Hexe].
Qed.

Lemma bark_h_recheck_file (f : file) (s : bark_state) :
  recheck_file (blobs := bark_h) f s = count_verification s.
Proof. unfold recheck_file. rewrite bark_h_verify_signature. reflexivity. Qed.

Lemma bark_h_recheck_task (t : task_struct) (s : bark_state) :
  get_task_exe_file t <> None ->
  recheck_task (blobs := bark_h) t s = count_verification s.
Proof.
  intros Hexe. unfold recheck_task. rewrite bark_h_verify_task_signature.
  destruct (get_task_exe_file t); [reflexivity | contradiction].
Qed.

Lemma iter_count_verification (n : nat) (s : bark_state) :
  sig_verifications (Nat.iter n count_verification s) = (sig_verifications s + n)%nat
  /\ task_blobs (Nat.iter n count_verification s) = task_blobs s
  /\ file_blobs (Nat.iter n count_verification s) = file_blobs s.
Proof.
  induction n as [|n (IHc & IHt & IHf)]; [cbn; repeat split; lia|].
  rewrite Nat.iter_succ. cbn [count_verification sig_verifications task_blobs file_blobs].
  repeat split; [lia | exact IHt | exact IHf].
Qed.

(** C3: with the accessors of bark.h a verification outcome is never kept.
    However often a file has been verified, each time as
    [BARK_SIG_VALID], the next [bark_verify_signature] call for it runs the
    verification again instead of answering from a cache, and so does
    [bark_verify_task_signature] for a task with a resolvable executable:
    [n] calls for one subject run [n] verifications and write no blob. *)
Theorem bark_h_verifies_on_every_call
    (f : file) (t : task_struct) (n : nat) (s : bark_state) :
  let sf := Nat.iter n (recheck_file (blobs := bark_h) f) s in
  let st := Nat.iter n (recheck_task (blobs := bark_h) t) s in
  sig_verifications sf = (sig_verifications s + n)%nat
  /\ bark_verify_signature (blobs := bark_h) (Some f) (Some None) sf
     = (0, Some BARK_SIG_VALID, count_verification sf)
  /\ file_blobs sf = file_blobs s
  /\ (get_task_exe_file t <> None ->
      sig_verifications st = (sig_verifications s + n)%nat
      /\ bark_verify_task_signature (blobs := bark_h) (Some t) st
         = (0, count_verification st)
      /\ task_blobs st = task_blobs s).
Proof.
  cbv zeta.
  assert (Hf : Nat.iter n (recheck_file (blobs := bark_h) f) s
               = Nat.iter n count_verification s).
  { induction n as [|n IH]; [reflexivity|].
    rewrite !Nat.iter_succ, IH. apply bark_h_recheck_file. }
  destruct (iter_count_verification n s) as (Hc & Ht & Hfb).
  rewrite Hf. split; [exact Hc|]. split; [apply bark_h_verify_signature|].
  split; [exact Hfb|]. intros Hexe.
  assert (Htk : Nat.iter n (recheck_task (blobs := bark_h) t) s
                = Nat.iter n count_verification s).
  { clear Hf. induction n as [|k IH]; [reflexivity|].
    rewrite !Nat.iter_succ, IH.
    - apply bark_h_recheck_task. exact Hexe.
    - apply iter_count_verification.
    - apply iter_count_verification.
    - apply iter_count_verification. }
  rewrite Htk. split; [exact Hc|]. split; [|exact Ht].
  rewrite bark_h_verify_task_signature.
  destruct (get_task_exe_file t); [reflexivity | contradiction].
Qed.

Lemma bark_h_verifies_on_every_call_witness :
  sig_verifications (Nat.iter 2 (recheck_task (blobs := bark_h) sh_task) ceiling_100)
  = 2%nat
  /\ bark_verify_task_signature (blobs := bark_h) (Some sh_task)
       (Nat.iter 2 (recheck_task (blobs := bark_h) sh_task) ceiling_100)
     = (0, count_verification
             (Nat.iter 2 (recheck_task (blobs := bark_h) sh_task) ceiling_100)).
Proof.
  pose proof (bark_h_verifies_on_every_call sh_file sh_task 2 ceiling_100) as H.
  cbv zeta in H. destruct H as (_ & _ & _ & Htask).
  destruct Htask as (Hcount & Hagain & _); [discriminate|].
  split; [exact Hcount | exact Hagain].
Defined.

(** C4: the accessors [bark_task] and [bark_file] of bark.h return NULL for
    every task and file.  So [bark_verify_signature] on any file runs the
    verification (never the cache branch) and [bark_verify_task_signature]
    on any task goes on to resolve the executable and verify it; neither
    they nor any hook writes a task or file blob, and [bark_task_free_hook]
    changes nothing. *)
Theorem bark_h_attaches_no_record :
  (forall t : task_struct, bark_task (SecurityBlobs := bark_h) t = None)
  /\ (forall f : file, bark_file (SecurityBlobs := bark_h) f = None)
  /\ (forall (f : file) (c : out_cell bark_sig_state) (s : bark_state),
        bark_verify_signature (blobs := bark_h) (Some f) (Some c) s
        = (0, Some BARK_SIG_VALID, count_verification s))
  /\ (forall (t : task_struct) (s : bark_state),
        bark_verify_task_signature (blobs := bark_h) (Some t) s =
        match get_task_exe_file t with
        | None => (- ENOENT,
                   if bark_verbose s =? 0 then s
                   else printk KERN_WARNING (MsgNoExecutable (pid t)) s)
        | Some _ => (0, count_verification s)
        end)
  /\ (forall (t : task_struct) (s : bark_state),
        bark_task_free_hook (blobs := bark_h) t s = s)
  /\ (forall (file : option file) (st : option (out_cell bark_sig_state))
             (s : bark_state),
        let s' := (bark_verify_signature (blobs := bark_h) file st s).2 in
        task_blobs s' = task_blobs s /\ file_blobs s' = file_blobs s)
  /\ (forall (task : option task_struct) (s : bark_state),
        let s' := (bark_verify_task_signature (blobs := bark_h) task s).2 in
        task_blobs s' = task_blobs s /\ file_blobs s' = file_blobs s)
  /\ (forall (task : option task_struct) (flags : Z) (s : bark_state),
        let s' := (bark_task_alloc_hook (blobs := bark_h) task flags s).2 in
        task_blobs s' = task_blobs s /\ file_blobs s' = file_blobs s)
  /\ (forall (bprm : linux_binprm) (s : bark_state),
        let s' := (bark_bprm_check_hook (blobs := bark_h) bprm s).2 in
        task_blobs s' = task_blobs s /\ file_blobs s' = file_blobs s).
Proof.
  split; [reflexivity|]. split; [reflexivity|].
  split; [exact bark_h_verify_signature|].
  split; [exact bark_h_verify_task_signature|].
  split; [reflexivity|].
  assert (Hvt : forall (task : option task_struct) (s : bark_state),
             let s' := (bark_verify_task_signature (blobs := bark_h) task s).2 in
             task_blobs s' = task_blobs s /\ file_blobs s' = file_blobs s).
  { intros [t|] s; cbv zeta; [|split; reflexivity].
    rewrite bark_h_verify_task_signature.
    destruct (get_task_exe_file t); cbn [snd]; [split; reflexivity|].
    destruct (bark_verbose s =? 0); split; reflexivity. }
  split; [|split; [exact Hvt|split]].
  - intros [f|] [c|] s; cbv zeta; try (split; reflexivity).
    rewrite bark_h_verify_signature. split; reflexivity.
  - intros task flags s. cbv zeta. unfold bark_task_alloc_hook.
    destruct (bark_enforce s =? 0); [split; reflexivity|].
    unfold bark_check_entropy_ceiling.
    destruct (_ >? _) eqn:Hcmp; cbn [negb Z.eqb Z.opp EPERM].
    + destruct (bark_verbose (inc_entropy_blocks s) =? 0); split; reflexivity.
    + unfold bark_authorize_task.
      destruct task as [t|];
        [|cbn; destruct (bark_verbose s =? 0); split; reflexivity].
      rewrite Hcmp.
      pose proof (Hvt (Some t) s) as Hb. cbv zeta in Hb.
      destruct (bark_verify_task_signature (Some t) s) as [ret s1].
      cbn [snd] in Hb.
      destruct (negb (ret =? 0)) eqn:Hret; rewrite ?Hret; cbn [negb Z.eqb];
        unfold bark_log_authorization;
        destruct (bark_verbose s1 =? 0); exact Hb.
  - intros bprm s. cbv zeta. unfold bark_bprm_check_hook.
    destruct (bark_enforce s =? 0); [split; reflexivity|].
    destruct (bprm_file bprm) as [f|]; [rewrite bark_h_verify_signature|];
      cbn; destruct (bark_verbose s =? 0); split; reflexivity.
Qed.

(** ** The theorems at concrete inputs *)

Lemma verify_signature_unjudged_is_valid_witness :
  (bark_verify_signature (blobs := bark_h) (Some sh_file) (Some None)
     ceiling_100).1.1 = 0
  /\ (bark_verify_signature (blobs := bark_h) (Some sh_file) (Some None)
        ceiling_100).1.2 = Some BARK_SIG_VALID.
Proof.
  pose proof (verify_signature_unjudged_is_valid (blobs := bark_h)
                sh_file None ceiling_100) as H.
  cbv zeta in H. destruct H as (Hret & Hstate & _).
  - left. reflexivity.
  - split; [exact Hret | exact Hstate].
Defined.

Lemma task_alloc_entropy_block_counted_twice_witness :
  (bark_task_alloc_hook (blobs := bark_h) (Some sh_task) 0
     (set_current_entropy 101 ceiling_100)).1 = BARK_ERR_ENTROPY_EXCEEDED
  /\ entropy_blocks (bark_statistics
        (bark_task_alloc_hook (blobs := bark_h) (Some sh_task) 0
           (set_current_entropy 101 ceiling_100)).2) = 2.
Proof.
  pose proof (task_alloc_entropy_block_counted_twice (blobs := bark_h)
                (Some sh_task) 0 (set_current_entropy 101 ceiling_100)) as H.
  cbv zeta in H. destruct H as (Hret & _ & _ & Htwo & _).
  - cbn. lia.
  - vm_compute. reflexivity.
  - split; [exact Hret|]. apply Htwo. cbn. unfold_long. lia.
Defined.



Lemma task_alloc_enforcement_off_witness :
  bark_task_alloc_hook (blobs := bark_h) (Some orphan_task) 0 not_enforcing
  = (0, not_enforcing).
Proof.
  refine (proj1 (task_alloc_enforcement_off (blobs := bark_h)
                   (Some orphan_task) 0 not_enforcing _)).
  reflexivity.
Defined.

Lemma bprm_check_signature_gate_witness :
  (bark_bprm_check_hook (blobs := bark_h) null_bprm ceiling_100).1
    = BARK_ERR_SIGNATURE_INVALID
  /\ signature_failures (bark_statistics
        (bark_bprm_check_hook (blobs := bark_h) null_bprm ceiling_100).2)
     = 1
  /\ bark_bprm_check_hook (blobs := bark_h) sh_bprm ceiling_100
     = (0, (bark_verify_signature (blobs := bark_h) (Some sh_file) (Some None)
              ceiling_100).2).
Proof.
  pose proof (bprm_check_signature_gate (blobs := bark_h) null_bprm
                ceiling_100) as Hbad.
  pose proof (bprm_check_signature_gate (blobs := bark_h) sh_bprm
                ceiling_100) as Hgood.
  cbv zeta in Hbad, Hgood.
  destruct Hbad as (_ & _ & Hdeny & _); [cbn; lia|].
  destruct Hgood as (_ & Hallow & _); [cbn; lia|].
  destruct Hdeny as (Hret & _ & Hone & _); [vm_compute; discriminate|].
  split; [exact Hret|]. split.
  - apply Hone. cbn. unfold_long. lia.
  - apply Hallow. vm_compute. reflexivity.
Defined.

Lemma verify_task_unresolvable_is_enoent_witness :
  (bark_verify_task_signature (blobs := bark_h) (Some orphan_task)
     ceiling_100).1 = - ENOENT
  /\ (bark_verify_task_signature (blobs := bark_h) (Some orphan_task)
        ceiling_100).2 = ceiling_100.
Proof.
  pose proof (verify_task_unresolvable_is_enoent (blobs := bark_h)
                orphan_task ceiling_100) as H.
  cbv zeta in H. destruct H as (Hret & _ & _ & Hstate & _).
  - vm_compute. discriminate.
  - reflexivity.
  - split; [exact Hret | exact Hstate].
Defined.

(** * Further properties of the module *)

(** ** Entropy events and a wrapped counter *)

Lemma bark_update_entropy_positive (delta : Z) (s : bark_state) :
  0 <= current_entropy s -> 1 <= delta ->
  current_entropy s + delta <= LONG_MAX ->
  bark_update_entropy delta s
  = set_current_entropy (current_entropy s + delta - 1) s.
Proof.
  intros Hc Hd Hmax. rewrite bark_update_entropy_eq. f_equal. cbv zeta.
  rewrite to_long_small by (unfold_long; lia).
  destruct (_ >? 0) eqn:Hpos; lia.
Qed.

(** X1: on a counter that is not negative and at least 10 below
    [LONG_MAX], an entropy event changes the counter alone, by 9 for a
    process creation (type 0), 4 for network I/O (1), 2 for disk I/O (2) and
    by nothing for a timer interrupt (3) or any other event type: their
    delta of 1 is taken back at once by the decay. *)
Theorem entropy_event_net_effect (event_type : Z) (s : bark_state) :
  0 <= current_entropy s ->
  current_entropy s + 10 <= LONG_MAX ->
  bark_entropy_event event_type s
  = set_current_entropy
      (current_entropy s
       + (if event_type =? 0 then 9
          else if event_type =? 1 then 4
          else if event_type =? 2 then 2
          else 0)) s.
Proof.
  intros Hc Hmax. unfold bark_entropy_event.
  destruct event_type as [|[[q|q|]|[q|q|]|]|q]; cbv beta iota;
    rewrite bark_update_entropy_positive by lia; f_equal;
    match goal with
    | |- context [Z.eqb ?a 0] => destruct (Z.eqb_spec a 0); try lia
    end;
    repeat match goal with
    | |- context [Z.eqb ?a ?b] => destruct (Z.eqb_spec a b); try lia
    end.
Qed.

Lemma entropy_event_net_effect_witness :
  bark_entropy_event 3 (set_current_entropy 50 ceiling_100)
  = set_current_entropy 50 ceiling_100
  /\ bark_entropy_event 1 (set_current_entropy 50 ceiling_100)
     = set_current_entropy 54 ceiling_100.
Proof.
  split.
  - refine (entropy_event_net_effect 3 (set_current_entropy 50 ceiling_100) _ _).
    + cbn. lia.
    + cbn. unfold_long. lia.
  - refine (entropy_event_net_effect 1 (set_current_entropy 50 ceiling_100) _ _).
    + cbn. lia.
    + cbn. unfold_long. lia.
Defined.

Section Verdicts.
Context {blobs : SecurityBlobs}.

(** What [bark_verify_task_signature] leaves alone. *)
Lemma verify_task_frame (task : option task_struct) (s : bark_state) :
  let s' := (bark_verify_task_signature task s).2 in
  bark_statistics s' = bark_statistics s
  /\ current_entropy s' = current_entropy s
  /\ bark_enforce s' = bark_enforce s
  /\ bark_verbose s' = bark_verbose s
  /\ bark_max_entropy s' = bark_max_entropy s
  /\ ktime_real s' = ktime_real s.
Proof.
  cbv zeta. unfold bark_verify_task_signature.
  destruct task as [t|]; [|repeat split; reflexivity].
  destruct (_ && _); [repeat split; reflexivity|].
  destruct (get_task_exe_file t) as [exe|].
  - pose proof (verify_signature_frame (Some exe) (Some None) s)
      as (Hst & Hent & _ & _ & Hen & Hverb & Hmax).
    assert (Htime : ktime_real (bark_verify_signature (Some exe) (Some None) s).2
                    = ktime_real s).
    { unfold bark_verify_signature. destruct (_ && _); [reflexivity|].
      change (bark_enforce (count_verification s)) with (bark_enforce s).
      destruct (bark_enforce s =? 0); [reflexivity|].
      destruct (bark_file exe); reflexivity. }
    cbv zeta in *.
    destruct (bark_verify_signature (Some exe) (Some None) s) as [[ret st] s1].
    cbn [fst snd] in *.
    destruct (negb (ret =? 0) || negb (is_valid st)); cbn [snd];
      [repeat split; assumption|].
    destruct (bark_task t); repeat split; assumption.
  - cbn [snd]. destruct (bark_verbose s =? 0); repeat split; reflexivity.
Qed.

(** The return codes of [bark_verify_task_signature]. *)
Lemma verify_task_codes (task : option task_struct) (s : bark_state) :
  let ret := (bark_verify_task_signature task s).1 in
  ret = 0 \/ ret = - EINVAL \/ ret = - ENOENT \/ ret = - EACCES.
Proof.
  cbv zeta. unfold bark_verify_task_signature.
  destruct task as [t|]; [|tauto].
  destruct (_ && _); [tauto|].
  destruct (get_task_exe_file t) as [exe|]; [|tauto].
  destruct (bark_verify_signature (Some exe) (Some None) s) as [[ret st] s1].
  destruct (negb (ret =? 0) || negb (is_valid st)); tauto.
Qed.

(** Task creation under enforcement and within the ceiling, in one
    equation. *)
Lemma task_alloc_within_eq (t : task_struct) (flags : Z) (s : bark_state) :
  bark_enforce s <> 0 ->
  bark_get_entropy_level s <= bark_max_entropy s ->
  bark_task_alloc_hook (Some t) flags s =
  let v := bark_verify_task_signature (Some t) s in
  let level := bark_get_entropy_level s in
  if v.1 =? 0 then
    (0, inc_authorizations
          (bark_log_authorization (Some t)
             (Some (mk_auth_result BARK_SIG_VALID level true None)) v.2))
  else
    (BARK_ERR_NOT_AUTHORIZED,
     inc_denials
       (bark_log_violation (Some t) (Some "Signature verification failed")
          (if bark_verbose s =? 0 then v.2
           else printk KERN_ALERT
                  (MsgUnauthorizedProjection "Signature verification failed")
                  v.2))).
Proof.
  intros Hen Hle. unfold bark_task_alloc_hook.
  destruct (bark_enforce s =? 0) eqn:He; [lia|].
  rewrite check_ceiling_within by exact Hle. cbn [negb Z.eqb].
  unfold bark_authorize_task.
  destruct (_ >? _) eqn:Hcmp; [lia|].
  pose proof (verify_task_frame (Some t) s) as (_ & _ & _ & Hverb & _).
  cbv zeta in *.
  destruct (bark_verify_task_signature (Some t) s) as [ret s1].
  cbn [fst snd] in *. rewrite <- Hverb.
  destruct (ret =? 0) eqn:Hret; cbn [negb].
  - apply Z.eqb_eq in Hret. subst ret. reflexivity.
  - rewrite Hret. reflexivity.
Qed.

(** X2: under enforcement and with the entropy level within the ceiling,
    [bark_task_alloc_hook] for a task returns 0 exactly when
    [bark_verify_task_signature] does, and [-EACCES] otherwise, whatever
    error the verification gave.  An allowed creation increments
    [authorizations] once and a refused one [denials] once; the other
    counters and the entropy counter are unchanged. *)
Theorem task_alloc_verdict (t : task_struct) (flags : Z) (s : bark_state) :
  bark_enforce s <> 0 ->
  bark_get_entropy_level s <= bark_max_entropy s ->
  let v := bark_verify_task_signature (Some t) s in
  let r := bark_task_alloc_hook (Some t) flags s in
  (r.1 = 0 <-> v.1 = 0)
  /\ (v.1 <> 0 -> r.1 = - EACCES)
  /\ authorizations (bark_statistics r.2)
     = (if v.1 =? 0 then atomic64_inc (authorizations (bark_statistics s))
        else authorizations (bark_statistics s))
  /\ denials (bark_statistics r.2)
     = (if v.1 =? 0 then denials (bark_statistics s)
        else atomic64_inc (denials (bark_statistics s)))
  /\ entropy_blocks (bark_statistics r.2) = entropy_blocks (bark_statistics s)
  /\ signature_failures (bark_statistics r.2)
     = signature_failures (bark_statistics s)
  /\ current_entropy r.2 = current_entropy s.
Proof.
  intros Hen Hle. cbv zeta. rewrite task_alloc_within_eq by assumption.
  pose proof (verify_task_frame (Some t) s) as (Hst & Hent & _ & Hverb & _).
  cbv zeta in *.
  destruct (bark_verify_task_signature (Some t) s) as [ret s1].
  cbn [fst snd] in *.
  destruct (ret =? 0) eqn:Hret.
  - apply Z.eqb_eq in Hret. subst ret. cbn [fst snd].
    unfold bark_log_authorization.
    destruct (bark_verbose s1 =? 0); cbn; rewrite Hst, Hent;
      repeat split; try reflexivity; intros; lia.
  - apply Z.eqb_neq in Hret. cbn [fst snd].
    destruct (bark_verbose s =? 0); cbn; rewrite Hst, Hent;
      repeat split; try reflexivity; intros; try lia; discriminate.
Qed.

(** X3: under enforcement and with the entropy level within the ceiling,
    a task whose executable cannot be resolved (and whose blob, if any,
    does not read [BARK_SIG_VALID]) is refused at creation with
    [-EACCES], not with the [-ENOENT] of the verification, and counted in
    [denials].  The log gets the violation with the reason
    "Signature verification failed", preceded when verbose by the warning
    about the executable and the alert. *)
Theorem task_alloc_unresolvable_denied (t : task_struct) (flags : Z) (s : bark_state) :
  bark_enforce s <> 0 ->
  bark_get_entropy_level s <= bark_max_entropy s ->
  tsec_sig_state (bark_task t) s <> BARK_SIG_VALID ->
  get_task_exe_file t = None ->
  let r := bark_task_alloc_hook (Some t) flags s in
  r.1 = - EACCES
  /\ denials (bark_statistics r.2) = atomic64_inc (denials (bark_statistics s))
  /\ authorizations (bark_statistics r.2) = authorizations (bark_statistics s)
  /\ sig_verifications r.2 = sig_verifications s
  /\ klog r.2
     = klog s
       ++ (if bark_verbose s =? 0 then []
           else [(KERN_WARNING, MsgNoExecutable (pid t));
                 (KERN_ALERT,
                  MsgUnauthorizedProjection "Signature verification failed")])
       ++ [(KERN_ALERT,
            MsgViolation (ktime_real s) (Some (pid t, comm t))
              "Signature verification failed")].
Proof.
  intros Hen Hle Hnot Hexe. cbv zeta.
  rewrite task_alloc_within_eq by assumption. cbv zeta.
  rewrite verify_task_unresolvable_eq by assumption. cbn [fst snd].
  change (- ENOENT =? 0) with false. cbv iota.
  destruct (bark_verbose s =? 0); cbn;
    rewrite <- ?app_assoc; repeat split; reflexivity.
Qed.

(** X4: a NULL task handed to [bark_task_alloc_hook] (enforcement on,
    level within the ceiling) is refused with [-EACCES] and counted in
    [denials]; nothing is verified, and the violation is logged without a
    subject under the reason "Unknown violation". *)
Theorem task_alloc_null_task (flags : Z) (s : bark_state) :
  bark_enforce s <> 0 ->
  bark_get_entropy_level s <= bark_max_entropy s ->
  let r := bark_task_alloc_hook None flags s in
  r.1 = - EACCES
  /\ denials (bark_statistics r.2) = atomic64_inc (denials (bark_statistics s))
  /\ authorizations (bark_statistics r.2) = authorizations (bark_statistics s)
  /\ sig_verifications r.2 = sig_verifications s
  /\ task_blobs r.2 = task_blobs s
  /\ file_blobs r.2 = file_blobs s
  /\ klog r.2
     = klog s
       ++ (if bark_verbose s =? 0 then []
           else [(KERN_ALERT, MsgUnauthorizedProjection "unknown")])
       ++ [(KERN_ALERT, MsgViolation (ktime_real s) None "Unknown violation")].
Proof.
  intros Hen Hle. cbv zeta. unfold bark_task_alloc_hook.
  destruct (bark_enforce s =? 0) eqn:He; [lia|].
  rewrite check_ceiling_within by exact Hle. cbn [negb Z.eqb].
  cbn [bark_authorize_task]. change (negb (- EINVAL =? 0)) with true. cbv iota.
  destruct (bark_verbose s =? 0); cbn;
    rewrite <- ?app_assoc; repeat split; reflexivity.
Qed.

End Verdicts.

Section Gates.
Context {blobs : SecurityBlobs}.

(** X5: [bark_authorize_task] on a task and a result buffer fills the
    buffer consistently with its return code: the code is 0 exactly when
    [authorized] is set, exactly when [sig_state] is [BARK_SIG_VALID] and
    exactly when no reason is given; [entropy_level] is the level at the
    call.  The code is [-EPERM] exactly when the level is above the
    ceiling, and then the module state is untouched (nothing is verified).
    No statistics counter ever moves. *)
Theorem authorize_task_result_consistent
    (t : task_struct) (buffer : bark_auth_result) (s : bark_state) :
  let '(ret, result, s') := bark_authorize_task (Some t) (Some buffer) s in
  exists r : bark_auth_result,
    result = Some r
    /\ (ret = 0 <-> ar_authorized r = true)
    /\ (ret = 0 <-> ar_sig_state r = BARK_SIG_VALID)
    /\ (ret = 0 <-> ar_reason r = None)
    /\ ar_entropy_level r = bark_get_entropy_level s
    /\ (ret = - EPERM <-> bark_get_entropy_level s > bark_max_entropy s)
    /\ (bark_get_entropy_level s > bark_max_entropy s -> s' = s)
    /\ bark_statistics s' = bark_statistics s.
Proof.
  unfold bark_authorize_task.
  destruct (_ >? _) eqn:Hcmp.
  - eexists. split; [reflexivity|]. cbn.
    repeat split; try discriminate; try reflexivity; intros; lia.
  - pose proof (verify_task_frame (Some t) s) as (Hst & _).
    pose proof (verify_task_codes (Some t) s) as Hcodes.
    cbv zeta in *.
    destruct (bark_verify_task_signature (Some t) s) as [ret s1].
    cbn [fst snd] in *.
    destruct (ret =? 0) eqn:Hret; cbn [negb].
    + apply Z.eqb_eq in Hret. subst ret.
      eexists. split; [reflexivity|]. cbn.
      repeat split; try reflexivity; try exact Hst; intros; try lia; discriminate.
    + apply Z.eqb_neq in Hret.
      eexists. split; [reflexivity|]. cbn.
      assert (ret <> - EPERM)
        by (destruct Hcodes as [-> | [-> | [-> | ->]]]; discriminate).
      repeat split; try exact Hst; intros; try lia; try discriminate; tauto.
Qed.

(** X6: [bark_authorize_file_exec] and the execution hook decide alike on
    a file under enforcement: one returns 0 exactly when the other does.
    The function never moves a statistics counter, where the hook counts a
    signature failure; and for a NULL file the function answers [-EINVAL]
    while the hook answers [-EACCES]. *)
Theorem authorize_file_exec_agrees_with_hook
    (f : file) (name : string) (s : bark_state) :
  bark_enforce s <> 0 ->
  ((bark_authorize_file_exec (Some f) s).1 = 0
   <-> (bark_bprm_check_hook (mk_binprm (Some f) name) s).1 = 0)
  /\ bark_statistics (bark_authorize_file_exec (Some f) s).2 = bark_statistics s
  /\ bark_authorize_file_exec None s = (- EINVAL, s)
  /\ (bark_bprm_check_hook (mk_binprm None name) s).1 = - EACCES
  /\ signature_failures
       (bark_statistics (bark_bprm_check_hook (mk_binprm None name) s).2)
     = atomic64_inc (signature_failures (bark_statistics s)).
Proof.
  intros Hen.
  split; [|split; [|split; [reflexivity|]]].
  - rewrite bprm_check_eq by exact Hen. cbv zeta. cbn [bprm_file].
    unfold bark_authorize_file_exec.
    pose proof (verify_signature_ok_iff_valid (Some f) s) as Hiff.
    cbv zeta in Hiff.
    destruct (bark_verify_signature (Some f) (Some None) s) as [[ret st] s1].
    cbn [fst snd] in *. unfold is_valid.
    case_bool_decide as Hv.
    + assert (ret = 0) as -> by tauto. cbn. tauto.
    + assert (Hret : ret <> 0) by tauto.
      destruct (ret =? 0) eqn:Hr; [lia|]. cbn [negb fst].
      split; [contradiction | discriminate].
  - unfold bark_authorize_file_exec.
    pose proof (verify_signature_frame (Some f) (Some None) s) as (Hst & _).
    cbv zeta in Hst.
    destruct (bark_verify_signature (Some f) (Some None) s) as [[ret st] s1].
    cbn [snd] in Hst.
    destruct (negb (ret =? 0)); [exact Hst|].
    destruct (negb (is_valid st)); exact Hst.
  - rewrite bprm_check_eq by exact Hen. cbn.
    destruct (bark_verbose s =? 0); split; reflexivity.
Qed.

(** X7: [bark_task_fix_setuid_hook] lets every credential change through
    with enforcement off; with it on it returns 0 exactly when
    [bark_verify_task_signature] accepts the current task and [-EACCES]
    otherwise.  It never moves a statistics counter, and the entropy
    counter plays no part: it is left as it was. *)
Theorem fix_setuid_gate (current : task_struct) (s : bark_state) :
  let v := bark_verify_task_signature (Some current) s in
  let r := bark_task_fix_setuid_hook current s in
  (bark_enforce s = 0 -> r = (0, s))
  /\ (bark_enforce s <> 0 ->
      (r.1 = 0 <-> v.1 = 0) /\ (v.1 <> 0 -> r.1 = - EACCES))
  /\ bark_statistics r.2 = bark_statistics s
  /\ current_entropy r.2 = current_entropy s.
Proof.
  cbv zeta. unfold bark_task_fix_setuid_hook.
  pose proof (verify_task_frame (Some current) s) as (Hst & Hent & _).
  cbv zeta in *.
  destruct (bark_enforce s =? 0) eqn:He.
  - apply Z.eqb_eq in He. repeat split; try reflexivity; intros; lia.
  - apply Z.eqb_neq in He.
    destruct (bark_verify_task_signature (Some current) s) as [ret s1].
    cbn [fst snd] in *.
    destruct (ret =? 0) eqn:Hret; cbn [negb].
    + apply Z.eqb_eq in Hret. subst ret.
      repeat split; try assumption; try reflexivity; intros; lia.
    + apply Z.eqb_neq in Hret.
      destruct (bark_verbose s1 =? 0); cbn [fst snd];
        repeat split; try assumption; intros; try lia; discriminate.
Qed.

(** X8: a counter that an overflow has left negative is stuck: calls of
    [update(0)] no longer change it, its level reads as the counter plus
    2^64, which is above every ceiling up to [LONG_MAX], so the ceiling
    check fails and under enforcement every task creation is refused with
    [-EPERM].  [bark_reset_entropy] ends this: after it the check passes. *)
Theorem negative_counter_is_stuck
    (task : option task_struct) (flags : Z) (s : bark_state) :
  LONG_MIN <= current_entropy s < 0 ->
  0 <= bark_max_entropy s <= LONG_MAX ->
  (forall n : nat, Nat.iter n (bark_update_entropy 0) s = s)
  /\ bark_get_entropy_level s = current_entropy s + 2 ^ 64
  /\ (bark_check_entropy_ceiling s).1 = - EPERM
  /\ (bark_enforce s <> 0 -> (bark_task_alloc_hook task flags s).1 = - EPERM)
  /\ bark_check_entropy_ceiling (bark_reset_entropy s)
     = (0, bark_reset_entropy s).
Proof.
  intros Hc Hmax.
  assert (Hlevel : bark_get_entropy_level s = current_entropy s + 2 ^ 64).
  { unfold bark_get_entropy_level, atomic_long_read. unfold_long.
    symmetry. apply Z.mod_unique_pos with (q := -1); lia. }
  assert (Hgt : bark_get_entropy_level s > bark_max_entropy s).
  { rewrite Hlevel. unfold_long. lia. }
  split; [|split; [exact Hlevel|split; [|split]]].
  - assert (Hone : bark_update_entropy 0 s = s).
    { rewrite bark_update_entropy_eq. cbv zeta.
      rewrite Z.add_0_r, to_long_small by (unfold_long; lia).
      destruct (_ >? 0) eqn:Hpos; [lia|]. apply set_current_entropy_same. }
    induction n as [|n IH]; [reflexivity|].
    rewrite Nat.iter_succ, IH. exact Hone.
  - rewrite check_ceiling_exceeded by exact Hgt. reflexivity.
  - intros Hen. rewrite task_alloc_entropy_denied by assumption. reflexivity.
  - apply check_ceiling_within.
    change (bark_get_entropy_level (bark_reset_entropy s)) with (to_ulong (to_long 0)).
    change (bark_max_entropy (bark_reset_entropy s)) with (bark_max_entropy s).
    change (to_ulong (to_long 0)) with 0. lia.
Qed.

End Gates.

(** ** Stores into blobs *)

Section Cache.
Context {blobs : SecurityBlobs}.

Lemma task_blob_store_same (p : blob_ptr) (st : bark_sig_state) (s : bark_state) :
  ts_sig_state (task_blob p (store_tsec_sig_state p st s)) = st.
Proof.
  unfold task_blob, store_tsec_sig_state. cbn [task_blobs set_task_blobs].
  rewrite lookup_insert_eq. reflexivity.
Qed.

Lemma task_blob_store_other (p q : blob_ptr) (st : bark_sig_state) (s : bark_state) :
  q <> p -> task_blob q (store_tsec_sig_state p st s) = task_blob q s.
Proof.
  intros Hne. unfold task_blob, store_tsec_sig_state.
  cbn [task_blobs set_task_blobs]. rewrite lookup_insert_ne by congruence.
  reflexivity.
Qed.

Lemma file_blob_store_same (p : blob_ptr) (st : bark_sig_state) (s : bark_state) :
  fs_sig_state (file_blob p (store_fsec_sig_state p st s)) = st.
Proof.
  unfold file_blob, store_fsec_sig_state. cbn [file_blobs set_file_blobs].
  rewrite lookup_insert_eq. reflexivity.
Qed.

Lemma file_blob_store_other (p q : blob_ptr) (st : bark_sig_state) (s : bark_state) :
  q <> p -> file_blob q (store_fsec_sig_state p st s) = file_blob q s.
Proof.
  intros Hne. unfold file_blob, store_fsec_sig_state.
  cbn [file_blobs set_file_blobs]. rewrite lookup_insert_ne by congruence.
  reflexivity.
Qed.

Lemma file_blob_store_tsec (p q : blob_ptr) (st : bark_sig_state) (s : bark_state) :
  file_blob q (store_tsec_sig_state p st s) = file_blob q s.
Proof. reflexivity. Qed.

Lemma task_blob_store_fsec (p q : blob_ptr) (st : bark_sig_state) (s : bark_state) :
  task_blob q (store_fsec_sig_state p st s) = task_blob q s.
Proof. reflexivity. Qed.

(** A file whose blob does not hold a rejection is accepted, and the task
    blobs stay as they were. *)
Lemma verify_signature_accepts (f : file) (s : bark_state) :
  fsec_sig_state (bark_file f) s = BARK_SIG_UNKNOWN
  \/ fsec_sig_state (bark_file f) s = BARK_SIG_VALID ->
  exists s1 : bark_state,
    bark_verify_signature (Some f) (Some None) s = (0, Some BARK_SIG_VALID, s1)
    /\ task_blobs s1 = task_blobs s.
Proof.
  intros [Hunk|Hvalid].
  - rewrite verify_signature_miss by exact Hunk. eexists. split; [reflexivity|].
    destruct (bark_enforce s =? 0); [reflexivity|].
    destruct (bark_file f); reflexivity.
  - assert (Hsome : is_Some (bark_file f)).
    { destruct (bark_file f); [eauto | discriminate]. }
    rewrite verify_signature_hit by (try exact Hsome; rewrite Hvalid; discriminate).
    rewrite Hvalid. eexists. split; reflexivity.
Qed.

End Cache.

(** ** No hook ever records a rejection *)

Section Invariant.
Context {blobs : SecurityBlobs}.

Lemma no_rejection_frame (s s' : bark_state) :
  task_blobs s' = task_blobs s ->
  file_blobs s' = file_blobs s ->
  no_rejection s -> no_rejection s'.
Proof.
  unfold no_rejection, file_blob, task_blob.
  intros Ht Hf H p. rewrite Ht, Hf. apply H.
Qed.

Lemma no_rejection_store_fsec (p : blob_ptr) (s : bark_state) :
  no_rejection s -> no_rejection (store_fsec_sig_state p BARK_SIG_VALID s).
Proof.
  intros H q. rewrite task_blob_store_fsec. split; [|apply H].
  destruct (decide (q = p)) as [->|Hne].
  - right. apply file_blob_store_same.
  - rewrite file_blob_store_other by exact Hne. apply H.
Qed.

Lemma no_rejection_store_tsec (p : blob_ptr) (s : bark_state) :
  no_rejection s -> no_rejection (store_tsec_sig_state p BARK_SIG_VALID s).
Proof.
  intros H q. rewrite file_blob_store_tsec. split; [apply H|].
  destruct (decide (q = p)) as [->|Hne].
  - right. apply task_blob_store_same.
  - rewrite task_blob_store_other by exact Hne. apply H.
Qed.

Lemma no_rejection_fsec (fsec : option blob_ptr) (s : bark_state) :
  no_rejection s ->
  fsec_sig_state fsec s = BARK_SIG_UNKNOWN \/ fsec_sig_state fsec s = BARK_SIG_VALID.
Proof. intros H. destruct fsec as [p|]; [apply H | left; reflexivity]. Qed.

Lemma verify_signature_keeps_no_rejection
    (file : option file) (st : option (out_cell bark_sig_state)) (s : bark_state) :
  no_rejection s -> no_rejection (bark_verify_signature file st s).2.
Proof.
  intros H. unfold bark_verify_signature.
  destruct file as [f|], st as [c|]; try exact H.
  destruct (_ && _); [exact H|].
  assert (Hcount : no_rejection (count_verification s))
    by (apply (no_rejection_frame s); [reflexivity | reflexivity | exact H]).
  change (bark_enforce (count_verification s)) with (bark_enforce s).
  destruct (bark_enforce s =? 0); [exact Hcount|].
  destruct (bark_file f); [apply no_rejection_store_fsec|]; exact Hcount.
Qed.

Lemma verify_task_keeps_no_rejection (task : option task_struct) (s : bark_state) :
  no_rejection s -> no_rejection (bark_verify_task_signature task s).2.
Proof.
  intros H. unfold bark_verify_task_signature.
  destruct task as [t|]; [|exact H].
  destruct (_ && _); [exact H|].
  destruct (get_task_exe_file t) as [exe|].
  - pose proof (verify_signature_keeps_no_rejection (Some exe) (Some None) s H) as H1.
    destruct (bark_verify_signature (Some exe) (Some None) s) as [[ret st] s1].
    cbn [snd] in H1.
    destruct (negb (ret =? 0) || negb (is_valid st)); [exact H1|].
    destruct (bark_task t); [apply no_rejection_store_tsec|]; exact H1.
  - cbn [snd]. destruct (bark_verbose s =? 0); [exact H|].
    apply (no_rejection_frame s); [reflexivity | reflexivity | exact H].
Qed.

(** With no rejection recorded, a task with a resolvable executable is
    accepted. *)
Lemma verify_task_accepts (t : task_struct) (s : bark_state) :
  no_rejection s ->
  get_task_exe_file t <> None ->
  (bark_verify_task_signature (Some t) s).1 = 0.
Proof.
  intros H Hexe. unfold bark_verify_task_signature.
  destruct (_ && _); [reflexivity|].
  destruct (get_task_exe_file t) as [exe|]; [|contradiction].
  destruct (verify_signature_accepts exe s (no_rejection_fsec _ s H))
    as (s1 & -> & _).
  reflexivity.
Qed.

Lemma bark_hooks_keep_no_rejection (ev : lsm_event) (s : bark_state) :
  no_rejection s -> no_rejection (bark_hooks ev s).2.
Proof.
  intros H. destruct ev as [task flags|task|bprm|target mask|current];
    cbn [bark_hooks snd].
  - unfold bark_task_alloc_hook.
    destruct (bark_enforce s =? 0); [exact H|].
    unfold bark_check_entropy_ceiling.
    destruct (_ >? _) eqn:Hcmp; cbn [negb Z.eqb Z.opp EPERM].
    + apply (no_rejection_frame s); [| |exact H];
        destruct (bark_verbose (inc_entropy_blocks s) =? 0); reflexivity.
    + unfold bark_authorize_task.
      destruct task as [t|].
      * rewrite Hcmp.
        pose proof (verify_task_keeps_no_rejection (Some t) s H) as H1.
        destruct (bark_verify_task_signature (Some t) s) as [ret s1].
        cbn [snd] in H1.
        destruct (negb (ret =? 0)) eqn:Hret; rewrite ?Hret; cbn [negb Z.eqb];
          apply (no_rejection_frame s1); try exact H1;
          unfold bark_log_authorization;
          destruct (bark_verbose s1 =? 0); reflexivity.
      * cbn. apply (no_rejection_frame s); [| |exact H];
          destruct (bark_verbose s =? 0); reflexivity.
  - unfold bark_task_free_hook. destruct (bark_task task) as [p|]; [|exact H].
    intros q. split; [apply H|].
    unfold task_blob. cbn [task_blobs set_task_blobs].
    destruct (decide (q = p)) as [->|Hne].
    + rewrite lookup_insert_eq. left. reflexivity.
    + rewrite lookup_insert_ne by congruence. apply H.
  - unfold bark_bprm_check_hook.
    destruct (bark_enforce s =? 0); [exact H|].
    pose proof (verify_signature_keeps_no_rejection (bprm_file bprm) (Some None) s H)
      as H1.
    destruct (bark_verify_signature (bprm_file bprm) (Some None) s)
      as [[ret st] s1].
    cbn [snd] in H1.
    destruct (negb (ret =? 0) || negb (is_valid st)); [|exact H1].
    apply (no_rejection_frame s1); try exact H1;
      destruct (bark_verbose s1 =? 0); reflexivity.
  - exact H.
  - unfold bark_task_fix_setuid_hook.
    destruct (bark_enforce s =? 0); [exact H|].
    pose proof (verify_task_keeps_no_rejection (Some current) s H) as H1.
    destruct (bark_verify_task_signature (Some current) s) as [ret s1].
    cbn [snd] in H1.
    destruct (negb (ret =? 0)); [|exact H1].
    apply (no_rejection_frame s1); try exact H1;
      destruct (bark_verbose s1 =? 0); reflexivity.
Qed.

Lemma deliver_keeps_no_rejection (events : list lsm_event) (s : bark_state) :
  no_rejection s -> no_rejection (deliver events s).
Proof.
  revert s. induction events as [|ev events IH]; intros s H; [exact H|].
  apply IH. apply bark_hooks_keep_no_rejection. exact H.
Qed.

(** X12: the module only ever writes [BARK_SIG_VALID] into a blob.  From a
    state in which no blob holds a rejection (as at load time), whatever
    events the hooks have handled since, no blob holds one; the execution
    hook then allows every file that is not NULL, and a task with a
    resolvable executable passes the credential hook, and task creation
    too unless the entropy level is over the ceiling. *)
Theorem no_rejection_is_invariant (events : list lsm_event) (s : bark_state) :
  no_rejection s ->
  let s' := deliver events s in
  no_rejection s'
  /\ (forall (f : file) (name : string),
        (bark_bprm_check_hook (mk_binprm (Some f) name) s').1 = 0)
  /\ (forall (t : task_struct) (flags : Z),
        get_task_exe_file t <> None ->
        bark_get_entropy_level s' <= bark_max_entropy s' ->
        (bark_task_alloc_hook (Some t) flags s').1 = 0)
  /\ (forall t : task_struct,
        get_task_exe_file t <> None ->
        (bark_task_fix_setuid_hook t s').1 = 0).
Proof.
  intros H. cbv zeta.
  pose proof (deliver_keeps_no_rejection events s H) as H'.
  set (s' := deliver events s) in *. clearbody s'.
  split; [exact H'|]. split; [|split].
  - intros f name. unfold bark_bprm_check_hook. cbn [bprm_file].
    destruct (bark_enforce s' =? 0); [reflexivity|].
    destruct (verify_signature_accepts f s' (no_rejection_fsec _ s' H'))
      as (s1 & -> & _).
    reflexivity.
  - intros t flags Hexe Hle. unfold bark_task_alloc_hook.
    destruct (bark_enforce s' =? 0) eqn:He; [reflexivity|].
    apply Z.eqb_neq in He.
    pose proof (task_alloc_within_eq t flags s' He Hle) as Heq.
    unfold bark_task_alloc_hook in Heq.
    destruct (bark_enforce s' =? 0) eqn:He'; [lia|].
    rewrite Heq. cbv zeta.
    rewrite (verify_task_accepts t s' H' Hexe). reflexivity.
  - intros t Hexe. unfold bark_task_fix_setuid_hook.
    destruct (bark_enforce s' =? 0); [reflexivity|].
    pose proof (verify_task_accepts t s' H' Hexe) as Hok.
    destruct (bark_verify_task_signature (Some t) s') as [ret s1].
    cbn [fst] in Hok. subst ret. reflexivity.
Qed.

End Invariant.

(** ** Hashing a file *)

Lemma unhex_byte_hex (b : Byte.byte) (cs : list Ascii.ascii) :
  unhex (byte_hex b ++ cs)
  = match unhex cs with
    | Some bs => Some (b :: bs)
    | None => None
    end.
Proof.
  destruct b; cbn [byte_hex app];
    (change (unhex (?h :: ?l :: cs))
       with (match unhex_digit h, unhex_digit l, unhex cs with
             | Some h', Some l', Some bs =>
                 match Byte.of_N (16 * h' + l') with
                 | Some b' => Some (b' :: bs)
                 | None => None
                 end
             | _, _, _ => None
             end));
    destruct (unhex cs); reflexivity.
Qed.

Lemma unhex_hex_bytes (bs : list Byte.byte) :
  unhex (concat (map byte_hex bs)) = Some bs.
Proof.
  induction bs as [|b bs IH]; [reflexivity|].
  cbn [map concat]. rewrite unhex_byte_hex, IH. reflexivity.
Qed.

Lemma map_nth_seq (d : list Byte.byte) :
  map (fun i => nth i d Byte.x00) (seq 0 (length d)) = d.
Proof.
  induction d as [|b d IH]; [reflexivity|].
  cbn [length seq map nth]. f_equal.
  rewrite <- seq_shift, map_map. exact IH.
Qed.

Lemma hex_digit_unhex (n : N) :
  (n < 16)%N -> unhex_digit (hex_digit n) = Some n.
Proof.
  intros Hn. unfold hex_digit, unhex_digit.
  destruct (N.ltb_spec n 10);
    rewrite Ascii.N_ascii_embedding by lia.
  - replace ((48 <=? 48 + n) && (48 + n <=? 57))%N with true
      by (symmetry; apply andb_true_iff; split; apply N.leb_le; lia).
    f_equal. lia.
  - replace ((48 <=? 87 + n) && (87 + n <=? 57))%N with false
      by (symmetry; apply andb_false_iff; right; apply N.leb_gt; lia).
    replace ((97 <=? 87 + n) && (87 + n <=? 102))%N with true
      by (symmetry; apply andb_true_iff; split; apply N.leb_le; lia).
    f_equal. lia.
Qed.

Lemma hex_digit_in_alphabet (n : N) :
  (n < 16)%N ->
  In (hex_digit n) (String.list_ascii_of_string "0123456789abcdef").
Proof.
  intros Hn. rewrite <- (N2Nat.id n).
  assert (Hk : (N.to_nat n < 16)%nat) by lia.
  generalize dependent (N.to_nat n). intros k Hk.
  do 16 (destruct k as [|k];
         [vm_compute; repeat (first [left; reflexivity | right])|]).
  lia.
Qed.

Lemma byte_hex_in_alphabet (b : Byte.byte) :
  Forall (fun c => In c (String.list_ascii_of_string "0123456789abcdef"))
    (byte_hex b).
Proof.
  pose proof (Byte.to_N_bounded b) as Hb. unfold byte_hex. cbv zeta.
  constructor; [|constructor; [|constructor]]; apply hex_digit_in_alphabet.
  - apply N.Div0.div_lt_upper_bound. lia.
  - apply N.mod_lt. lia.
Qed.

(** X13: the string [bark_hash_file] writes for a digest is 64 characters
    long (it fits the 65-byte [signature_hash] with its NUL), of the
    lower-case hexadecimal digits only, and determines a 32-byte digest:
    reading the digits back yields the digest, so two digests with the same
    string are equal. *)
Theorem hex_of_digest_faithful (digest : list Byte.byte) :
  String.length (hex_of_digest digest) = 64%nat
  /\ Forall (fun c => In c (String.list_ascii_of_string "0123456789abcdef"))
       (String.list_ascii_of_string (hex_of_digest digest))
  /\ (length digest = 32%nat ->
      unhex (String.list_ascii_of_string (hex_of_digest digest)) = Some digest)
  /\ (forall other : list Byte.byte,
        length digest = 32%nat -> length other = 32%nat ->
        hex_of_digest digest = hex_of_digest other -> digest = other).
Proof.
  assert (Hround : forall d : list Byte.byte, length d = 32%nat ->
            unhex (String.list_ascii_of_string (hex_of_digest d)) = Some d).
  { intros d Hlen. unfold hex_of_digest.
    rewrite String.list_ascii_of_string_of_list_ascii.
    rewrite <- (map_map (fun i => nth i d Byte.x00) byte_hex).
    rewrite <- Hlen, map_nth_seq. apply unhex_hex_bytes. }
  split; [reflexivity|]. split; [|split].
  - unfold hex_of_digest. rewrite String.list_ascii_of_string_of_list_ascii.
    apply List.Forall_concat. apply List.Forall_map.
    apply List.Forall_forall. intros i _. apply byte_hex_in_alphabet.
  - apply Hround.
  - intros other Hlen Hlen' Heq.
    pose proof (Hround digest Hlen) as H1.
    rewrite Heq, (Hround other Hlen') in H1. congruence.
Qed.

Lemma hex_of_digest_faithful_witness :
  unhex (String.list_ascii_of_string (hex_of_digest sample_digest))
  = Some sample_digest.
Proof.
  refine (proj1 (proj2 (proj2 (hex_of_digest_faithful sample_digest))) _).
  reflexivity.
Defined.

Lemma hash_read_loop_stops (K : hash_services) (pre : list read_result)
    (r : read_result) (rest : list read_result) (msg : list Byte.byte) (ret : Z) :
  rr_bytes r <= 0 ->
  hash_read_loop K (pre ++ r :: rest) msg ret = hash_read_loop K pre msg ret.
Proof.
  intros Hr. revert msg ret.
  induction pre as [|x pre IH]; intros msg ret; cbn [app hash_read_loop].
  - destruct (rr_bytes r >? 0) eqn:Hpos; [lia | reflexivity].
  - destruct (rr_bytes x >? 0); [|reflexivity]. cbv zeta.
    destruct (negb (_ =? 0)); [reflexivity | apply IH].
Qed.

Lemma hash_read_loop_set_kernel_read
    (K : hash_services) (reads' : file -> list read_result)
    (reads : list read_result) (msg : list Byte.byte) (ret : Z) :
  hash_read_loop (set_kernel_read reads' K) reads msg ret
  = hash_read_loop K reads msg ret.
Proof.
  revert msg ret. induction reads as [|x reads IH]; intros msg ret;
    cbn [hash_read_loop]; [reflexivity|].
  destruct (rr_bytes x >? 0); [|reflexivity]. cbv zeta.
  change (crypto_shash_update (set_kernel_read reads' K))
    with (crypto_shash_update K).
  destruct (negb (_ =? 0)); [reflexivity | apply IH].
Qed.

(** X14: a [kernel_read] that fails (returns a negative value) ends the
    read loop of [bark_hash_file] exactly as the end of the file does:
    the call gives the same result as for a file that ends where the
    error occurred, so the error is not reported and the digest of the
    bytes read so far is returned as the file's. *)
Theorem read_error_ends_like_eof
    (K : hash_services) (f : file) (hash_len : Z)
    (pre : list read_result) (r : read_result) (rest : list read_result) :
  rr_bytes r <= 0 ->
  bark_hash_file (set_kernel_read (fun _ => pre ++ r :: rest) K) f hash_len
  = bark_hash_file (set_kernel_read (fun _ => pre) K) f hash_len.
Proof.
  intros Hr. unfold bark_hash_file. cbn [set_kernel_read crypto_alloc_shash
    kmalloc_desc crypto_shash_init kmalloc_buf kernel_read crypto_shash_final].
  rewrite !hash_read_loop_set_kernel_read.
  rewrite hash_read_loop_stops by exact Hr. reflexivity.
Qed.

Lemma read_error_ends_like_eof_witness :
  bark_hash_file (obliging_kernel chunk_then_error) sh_file 65
  = (0, Some (hex_of_digest sample_digest)).
Proof.
  refine (eq_trans
            (read_error_ends_like_eof (obliging_kernel []) sh_file 65
               [mk_read 3 [Byte.x61; Byte.x62; Byte.x63]] (mk_read (-5) []) [] _)
            _).
  - cbn. lia.
  - reflexivity.
Defined.

(** Closes one branch of [bark_hash_file]. *)
Ltac hash_case :=
  cbn [fst snd];
  repeat match goal with
  | |- _ /\ _ => split
  | |- _ <-> _ => split
  | |- forall _, _ => intro
  | H : is_Some None |- _ => destruct H as [? ?]; discriminate
  | H : None = Some _ |- _ => discriminate H
  | H : Some _ = Some _ |- _ => injection H as <-
  | H : _ \/ _ |- _ => destruct H
  | H : _ /\ _ |- _ => destruct H
  end;
  try reflexivity; try lia; try congruence; try contradiction; eauto;
  try (exfalso; match goal with H : _ = _ |- _ => discriminate H end).

(** X15: provided a failed [crypto_alloc_shash] carries a non-zero error
    (as an [IS_ERR] pointer does), [bark_hash_file] returns 0 exactly when
    it has written [hash_out], and what it writes is 64 characters long.
    A buffer shorter than 65 bytes is refused with [-EINVAL] before
    anything else, and a failed [kmalloc] gives [-ENOMEM]. *)
Theorem hash_file_outcome (K : hash_services) (f : file) (hash_len : Z) :
  (forall e : Z, crypto_alloc_shash K = ShashErr e -> e <> 0) ->
  let r := bark_hash_file K f hash_len in
  (r.1 = 0 <-> is_Some r.2)
  /\ (hash_len < 65 -> r = (- EINVAL, None))
  /\ (forall h : string, r.2 = Some h -> String.length h = 64%nat)
  /\ (65 <= hash_len -> crypto_alloc_shash K = ShashOk ->
      kmalloc_desc K = false
      \/ (crypto_shash_init K = 0 /\ kmalloc_buf K = false) ->
      r = (- ENOMEM, None)).
Proof.
  intros Herr. cbv zeta. unfold bark_hash_file.
  destruct (Z.ltb_spec hash_len 65) as [Hlen|Hlen]; [hash_case|].
  destruct (crypto_alloc_shash K) as [|e] eqn:Halloc;
    [|specialize (Herr e eq_refl); hash_case].
  destruct (kmalloc_desc K) eqn:Hdesc; cbn [negb]; [|hash_case].
  destruct (Z.eqb_spec (crypto_shash_init K) 0) as [Hinit|Hinit];
    cbn [negb]; [|hash_case].
  destruct (kmalloc_buf K) eqn:Hbuf; cbn [negb]; [|hash_case].
  destruct (hash_read_loop K (kernel_read K f) [] (crypto_shash_init K))
    as [ret msg].
  destruct (Z.eqb_spec ret 0) as [Hret|Hret]; [|hash_case].
  destruct (crypto_shash_final K msg) as [ret' digest].
  destruct (Z.eqb_spec ret' 0) as [Hret'|Hret']; hash_case.
Qed.

Lemma hash_file_outcome_witness :
  ((bark_hash_file (obliging_kernel chunk_then_error) sh_file 64).1 = 0
   <-> is_Some (bark_hash_file (obliging_kernel chunk_then_error) sh_file 64).2)
  /\ bark_hash_file (obliging_kernel chunk_then_error) sh_file 64 = (- EINVAL, None).
Proof.
  pose proof (hash_file_outcome (obliging_kernel chunk_then_error) sh_file 64) as H.
  cbv zeta in H. destruct H as (Hiff & Hshort & _).
  - intros e He. discriminate.
  - split; [exact Hiff | apply Hshort; lia].
Defined.

(** ** The further properties at concrete inputs *)

Lemma task_alloc_verdict_witness :
  (bark_task_alloc_hook (blobs := bark_h) (Some sh_task) 0 ceiling_100).1 = 0
  /\ authorizations
       (bark_statistics
          (bark_task_alloc_hook (blobs := bark_h) (Some sh_task) 0 ceiling_100).2)
     = 1.
Proof.
  pose proof (task_alloc_verdict (blobs := bark_h) sh_task 0 ceiling_100) as H.
  cbv zeta in H. destruct H as (Hiff & _ & Hauth & _).
  - cbn. lia.
  - vm_compute. discriminate.
  - split; [apply Hiff; reflexivity | exact Hauth].
Defined.

Lemma task_alloc_unresolvable_denied_witness :
  (bark_task_alloc_hook (blobs := bark_h) (Some orphan_task) 0 ceiling_100).1
    = - EACCES
  /\ denials
       (bark_statistics
          (bark_task_alloc_hook (blobs := bark_h) (Some orphan_task) 0
             ceiling_100).2) = 1.
Proof.
  pose proof (task_alloc_unresolvable_denied (blobs := bark_h) orphan_task 0
                ceiling_100) as H.
  cbv zeta in H. destruct H as (Hret & Hden & _).
  - cbn. lia.
  - vm_compute. discriminate.
  - discriminate.
  - reflexivity.
  - split; [exact Hret | exact Hden].
Defined.

Lemma task_alloc_null_task_witness :
  (bark_task_alloc_hook (blobs := bark_h) None 0 ceiling_100).1 = - EACCES
  /\ klog (bark_task_alloc_hook (blobs := bark_h) None 0 ceiling_100).2
     = [(KERN_ALERT, MsgViolation epoch None "Unknown violation")].
Proof.
  pose proof (task_alloc_null_task (blobs := bark_h) 0 ceiling_100) as H.
  cbv zeta in H. destruct H as (Hret & _ & _ & _ & _ & _ & Hlog).
  - cbn. lia.
  - vm_compute. discriminate.
  - split; [exact Hret | exact Hlog].
Defined.

Lemma authorize_file_exec_agrees_with_hook_witness :
  bark_statistics
    (bark_authorize_file_exec (blobs := bark_h) (Some sh_file) ceiling_100).2
  = bark_statistics ceiling_100
  /\ (bark_bprm_check_hook (blobs := bark_h) (mk_binprm None "/bin/sh")
        ceiling_100).1 = - EACCES.
Proof.
  pose proof (authorize_file_exec_agrees_with_hook (blobs := bark_h)
                sh_file "/bin/sh" ceiling_100) as H.
  destruct H as (_ & Hstat & _ & Hnull & _).
  - cbn. lia.
  - split; [exact Hstat | exact Hnull].
Defined.

Lemma negative_counter_is_stuck_witness :
  bark_get_entropy_level wrapped_counter = 2 ^ 64 - 5
  /\ (bark_task_alloc_hook (blobs := bark_h) (Some sh_task) 0 wrapped_counter).1
     = - EPERM.
Proof.
  pose proof (negative_counter_is_stuck (blobs := bark_h) (Some sh_task) 0
                wrapped_counter) as H.
  destruct H as (_ & Hlevel & _ & Hdeny & _).
  - cbn. unfold_long. lia.
  - cbn. unfold_long. lia.
  - split; [exact Hlevel | apply Hdeny; cbn; lia].
Defined.

Lemma no_rejection_is_invariant_witness :
  (bark_bprm_check_hook (blobs := bark_h) sh_bprm
     (deliver (blobs := bark_h)
        [task_alloc (Some sh_task) 0; bprm_check_security sh_bprm;
         task_fix_setuid orphan_task; task_free sh_task]
        ceiling_100)).1 = 0.
Proof.
  refine (proj1 (proj2 (no_rejection_is_invariant (blobs := bark_h)
                          [task_alloc (Some sh_task) 0;
                           bprm_check_security sh_bprm;
                           task_fix_setuid orphan_task; task_free sh_task]
                          ceiling_100 _)) sh_file "/bin/sh").
  intros p. split; left; reflexivity.
Defined.

(** ** What reaches the log with verbose logging off *)

Section QuietLog.
Context {blobs : SecurityBlobs}.

Lemma verify_task_quiet (task : option task_struct) (s : bark_state) :
  bark_verbose s = 0 ->
  klog (bark_verify_task_signature task s).2 = klog s.
Proof.
  intros Hq. unfold bark_verify_task_signature.
  destruct task as [t|]; [|reflexivity].
  destruct (_ && _); [reflexivity|].
  destruct (get_task_exe_file t) as [exe|].
  - pose proof (verify_signature_frame (Some exe) (Some None) s)
      as (_ & _ & _ & Hlog & _).
    cbv zeta in Hlog.
    destruct (bark_verify_signature (Some exe) (Some None) s) as [[ret st] s1].
    cbn [snd] in Hlog.
    destruct (negb (ret =? 0) || negb (is_valid st)); [exact Hlog|].
    destruct (bark_task t); exact Hlog.
  - rewrite Hq. reflexivity.
Qed.

(** X16: with verbose logging off and enforcement on, an allowed task
    creation writes nothing to the log and a refused one exactly one entry
    (the violation, or the entropy breach with level and ceiling); the
    execution hook and the credential hook write nothing at all, so a
    refused execution leaves its trace in [signature_failures] only. *)
Theorem quiet_log_policy (s : bark_state) :
  bark_verbose s = 0 ->
  bark_enforce s <> 0 ->
  (forall (task : option task_struct) (flags : Z),
      let r := bark_task_alloc_hook task flags s in
      (r.1 = 0 -> klog r.2 = klog s)
      /\ (r.1 <> 0 ->
          exists entry : kern_level * bark_message,
            klog r.2 = klog s ++ [entry]
            /\ (entry = (KERN_EMERG,
                         MsgEntropyExceeded (bark_get_entropy_level s)
                           (bark_max_entropy s))
                \/ exists who reason,
                     entry = (KERN_ALERT, MsgViolation (ktime_real s) who reason))))
  /\ (forall bprm : linux_binprm, klog (bark_bprm_check_hook bprm s).2 = klog s)
  /\ (forall current : task_struct,
        klog (bark_task_fix_setuid_hook current s).2 = klog s).
Proof.
  intros Hq Hen. split; [|split].
  - intros task flags. cbv zeta.
    destruct (Z.le_gt_cases (bark_get_entropy_level s) (bark_max_entropy s))
      as [Hle|Hgt].
    + destruct task as [t|].
      * rewrite task_alloc_within_eq by assumption. cbv zeta.
        pose proof (verify_task_quiet (Some t) s Hq) as Hlog.
        pose proof (verify_task_frame (Some t) s) as (_ & _ & _ & Hverb & _ & Htime).
        cbv zeta in *.
        destruct (bark_verify_task_signature (Some t) s) as [ret s1].
        cbn [fst snd] in *. rewrite Hq in *.
        destruct (ret =? 0); cbn [fst snd].
        -- split; [intros _ | intros Hne; contradiction].
           unfold bark_log_authorization. rewrite Hverb. exact Hlog.
        -- split; [discriminate | intros _].
           eexists. cbn. rewrite Hlog, Htime.
           split; [reflexivity | right; eauto].
      * unfold bark_task_alloc_hook.
        destruct (bark_enforce s =? 0) eqn:He; [lia|].
        rewrite check_ceiling_within by exact Hle. cbn [negb Z.eqb].
        cbn [bark_authorize_task]. change (negb (- EINVAL =? 0)) with true.
        cbv iota. rewrite Hq. cbn.
        split; [discriminate | intros _].
        eexists. split; [reflexivity | right; eauto].
    + rewrite task_alloc_entropy_denied by (try assumption; lia).
      rewrite Hq. cbn.
      split; [discriminate | intros _].
      eexists. split; [reflexivity | left; reflexivity].
  - intros bprm. rewrite bprm_check_eq by exact Hen. cbv zeta.
    pose proof (verify_signature_frame (bprm_file bprm) (Some None) s)
      as (_ & _ & _ & Hlog & _).
    cbv zeta in Hlog.
    destruct (bark_verify_signature (bprm_file bprm) (Some None) s)
      as [[ret st] s1].
    cbn [fst snd] in *. rewrite Hq.
    destruct (is_valid st); exact Hlog.
  - intros current. unfold bark_task_fix_setuid_hook.
    destruct (bark_enforce s =? 0); [reflexivity|].
    pose proof (verify_task_quiet (Some current) s Hq) as Hlog.
    pose proof (verify_task_frame (Some current) s) as (_ & _ & _ & Hverb & _).
    cbv zeta in *.
    destruct (bark_verify_task_signature (Some current) s) as [ret s1].
    cbn [fst snd] in *.
    destruct (negb (ret =? 0)); [|exact Hlog].
    rewrite Hverb, Hq. exact Hlog.
Qed.

End QuietLog.

Lemma quiet_log_policy_witness :
  klog (bark_bprm_check_hook (blobs := bark_h) null_bprm ceiling_100).2
  = klog ceiling_100
  /\ (bark_bprm_check_hook (blobs := bark_h) null_bprm ceiling_100).1
     = - EACCES.
Proof.
  split.
  - refine (proj1 (proj2 (quiet_log_policy (blobs := bark_h)
                            ceiling_100 _ _)) null_bprm).
    + reflexivity.
    + cbn. lia.
  - reflexivity.
Defined.

(** ** Tasks that run the same executable *)

Lemma check_tasks_cons `{blobs : SecurityBlobs}
    (t : task_struct) (tasks : list task_struct) (s : bark_state) :
  check_tasks (t :: tasks) s = check_tasks tasks (recheck_task t s).
Proof. reflexivity. Qed.

(** X10: with the accessors of bark.h, tasks share no verification, not
    even when they run the same executable: checking a series of tasks
    whose executables resolve succeeds for each of them and runs one
    verification per check, and leaves every blob as it was. *)
Theorem bark_h_tasks_share_no_verification
    (tasks : list task_struct) (s : bark_state) :
  Forall (fun t => get_task_exe_file t <> None) tasks ->
  sig_verifications (check_tasks (blobs := bark_h) tasks s)
  = (sig_verifications s + length tasks)%nat
  /\ Forall (fun t => forall s' : bark_state,
               bark_verify_task_signature (blobs := bark_h) (Some t) s'
               = (0, count_verification s')) tasks
  /\ task_blobs (check_tasks (blobs := bark_h) tasks s) = task_blobs s
  /\ file_blobs (check_tasks (blobs := bark_h) tasks s) = file_blobs s.
Proof.
  intros Hexe. revert s.
  induction Hexe as [|t tasks Ht _ IH]; intros s.
  - cbn. repeat split; [lia | constructor].
  - rewrite check_tasks_cons, bark_h_recheck_task by exact Ht.
    destruct (IH (count_verification s)) as (Hc & Hall & Htb & Hfb).
    split; [rewrite Hc; cbn; lia|]. split; [|split; [exact Htb | exact Hfb]].
    constructor; [|exact Hall].
    intros s'. rewrite bark_h_verify_task_signature.
    destruct (get_task_exe_file t); [reflexivity | contradiction].
Qed.

Lemma bark_h_tasks_share_no_verification_witness :
  sig_verifications
    (check_tasks (blobs := bark_h) [sh_task; sh_child; sh_task] ceiling_100)
  = 3%nat.
Proof.
  refine (proj1 (bark_h_tasks_share_no_verification [sh_task; sh_child; sh_task]
                   ceiling_100 _)).
  repeat constructor; discriminate.
Defined.
